(** * DoPilot: the pipeline orchestration engine, embedded and verified

    A shallow embedding of the algorithmic core of DoPilot
    ([agent/rate_limiter.py], [agent/tools.py], [agent/graph.py]):
    the sliding-window rate limiter, the project-root sandbox and the
    pattern scanner of the tools module, and the stage functions and
    routers of the LangGraph pipeline.

    Conventions.
    - Python [int] is [Z]; wall-clock readings and sleep durations
      ([float] seconds) are idealised as rationals [Q].
    - A call that may raise returns [result]; [except Exception] is a
      match on [Raise].
    - The pipeline state is the Python [dict] the nodes exchange, a
      [gmap string Value].
    - Whatever the outside world answers (the clock, the language model,
      the file system) is an explicit argument of the function that asks. *)

From Stdlib Require Import ZArith QArith Qminmax Qpower Lqa Lia List String Ascii Bool.
From stdpp Require Import base option gmap strings pretty.
Import ListNotations.

Local Open Scope string_scope.
Local Open Scope list_scope.
Local Open Scope Z_scope.

(* ===================================================================== *)
(** * Exceptions *)
(* ===================================================================== *)

(** The exception classes the modelled code raises or meets.  All of them
    derive from Python's [Exception], so a handler [except Exception]
    catches every value of this type. *)
Inductive Exn : Type :=
| ValueError (msg : string)
| TypeError (msg : string)
| AttributeError (msg : string)
| OSError (msg : string)
| IndexError (msg : string)
| ProviderError (msg : string)
| GraphRecursionError.

(** [str(e)] *)
Definition exn_str (e : Exn) : string :=
  match e with
  | ValueError m | TypeError m | AttributeError m | OSError m | IndexError m
  | ProviderError m => m
  | GraphRecursionError => "Recursion limit reached"
  end.

Inductive result (A : Type) : Type :=
| Ok (a : A)
| Raise (e : Exn).
Arguments Ok {A} a.
Arguments Raise {A} e.

Definition bind {A B} (r : result A) (k : A -> result B) : result B :=
  match r with
  | Ok a => k a
  | Raise e => Raise e
  end.

Notation "'let*' x ':=' r 'in' k" := (bind r (fun x => k))
  (at level 10, x name, r at level 100, k at level 200).

Definition raises {A} (r : result A) : Prop := exists e, r = Raise e.
Definition returns {A} (r : result A) : Prop := exists a, r = Ok a.

(* ===================================================================== *)
(** * agent/rate_limiter.py *)
(* ===================================================================== *)

Module RateLimiter.

(** [class RateLimiter]: [self.max_calls], [self.calls]. *)
Record t : Type := mk { max_calls : Z; calls : list Q }.

(** [RateLimiter(max_calls_per_minute)] *)
Definition init (max_calls_per_minute : Z) : t :=
  {| max_calls := max_calls_per_minute; calls := [] |}.

(** The comprehension's test [current_time - t < 60]. *)
Definition recent (current_time ts : Q) : bool :=
  if Qlt_le_dec (current_time - ts) 60 then true else false.

(** [[t for t in self.calls if current_time - t < 60]] *)
Definition prune (current_time : Q) (cs : list Q) : list Q :=
  List.filter (recent current_time) cs.

(** [can_proceed]; [current_time] is the reading of [time.time()]. *)
Definition can_proceed (current_time : Q) (rl : t) : bool * t :=
  let kept := prune current_time (calls rl) in
  if Z.of_nat (length kept) >=? max_calls rl
  then (false, {| max_calls := max_calls rl; calls := kept |})
  else (true, {| max_calls := max_calls rl; calls := kept ++ [current_time] |}).

(** [min(self.calls)]: raises on the empty list. *)
Definition list_min (cs : list Q) : result Q :=
  match cs with
  | [] => Raise (ValueError "min() arg is an empty sequence")
  | c :: cs' => Ok (fold_left Qmin cs' c)
  end.

(** [wait_time] *)
Definition wait_time (current_time : Q) (rl : t) : result Q * t :=
  match calls rl with
  | [] => (Ok 0%Q, rl)
  | _ :: _ =>
      let kept := prune current_time (calls rl) in
      let rl' := {| max_calls := max_calls rl; calls := kept |} in
      if Z.of_nat (length kept) <? max_calls rl
      then (Ok 0%Q, rl')
      else ((let* oldest_call := list_min kept in
             let time_since_oldest := (current_time - oldest_call)%Q in
             Ok (Qmax 0 ((60 - time_since_oldest) + 2))%Q),
            rl')
  end.

(** The module's globals: [RATE_LIMIT_DISABLED], [gemini_limiter],
    [groq_limiter]. *)
Record Globals : Type := mkGlobals {
  RATE_LIMIT_DISABLED : bool;
  gemini_limiter : t;
  groq_limiter : t
}.

(** [rate_limit_check(model_provider)].  The two clock readings are those
    of [can_proceed] and, on refusal, of [wait_time]. *)
Definition rate_limit_check (model_provider : string) (now1 now2 : Q) (g : Globals)
  : result (bool * Q) * Globals :=
  if RATE_LIMIT_DISABLED g then (Ok (true, 0%Q), g)
  else
    let is_gemini := String.eqb model_provider "gemini" in
    let limiter := if is_gemini then gemini_limiter g else groq_limiter g in
    let put l :=
      if is_gemini
      then {| RATE_LIMIT_DISABLED := RATE_LIMIT_DISABLED g;
              gemini_limiter := l; groq_limiter := groq_limiter g |}
      else {| RATE_LIMIT_DISABLED := RATE_LIMIT_DISABLED g;
              gemini_limiter := gemini_limiter g; groq_limiter := l |} in
    let '(ok, l1) := can_proceed now1 limiter in
    if negb ok then
      let '(w, l2) := wait_time now2 l1 in
      ((let* wt := w in Ok (false, wt)), put l2)
    else (Ok (true, 0%Q), put l1).

(** ** Runs of admission checks *)

(** One method call on a limiter, with the clock reading it gets. *)
Inductive call : Type :=
| CanProceed (current_time : Q)
| WaitTime (current_time : Q).


(** The limiter after one call, and the timestamp it admitted, if any. *)
Definition step (c : call) (rl : t) : t * list Q :=
  match c with
  | CanProceed n =>
      let '(ok, rl') := can_proceed n rl in (rl', if ok then [n] else [])
  | WaitTime n => (snd (wait_time n rl), [])
  end.

(** The limiter after a run of calls. *)
Fixpoint run (cs : list call) (rl : t) : t :=
  match cs with
  | [] => rl
  | c :: cs' => run cs' (fst (step c rl))
  end.

(** The timestamps of the calls of the run that were admitted, in order. *)
Fixpoint admissions (cs : list call) (rl : t) : list Q :=
  match cs with
  | [] => []
  | c :: cs' => snd (step c rl) ++ admissions cs' (fst (step c rl))
  end.






(** A limiter that admits nothing has recorded nothing. *)
Definition tidy (rl : t) : Prop := max_calls rl <= 0 -> calls rl = [].


End RateLimiter.

(* ===================================================================== *)
(** * Python strings *)
(* ===================================================================== *)

(** The string methods the modelled code calls.  Characters are bytes;
    the whitespace and digit classes are the ASCII ones. *)
Module Py.

Definition nl : ascii := ascii_of_nat 10.
Definition nl_str : string := String nl EmptyString.
(** The double-quote character, for the pattern tables. *)
Definition dq : string := String (ascii_of_nat 34) EmptyString.

(** [str.isspace] on ASCII: tab, LF, VT, FF, CR, FS, GS, RS, US, space. *)
Definition is_space (c : ascii) : bool :=
  let n := nat_of_ascii c in
  ((9 <=? n)%nat && (n <=? 13)%nat) || ((28 <=? n)%nat && (n <=? 32)%nat).

Definition is_digit (c : ascii) : bool :=
  let n := nat_of_ascii c in (48 <=? n)%nat && (n <=? 57)%nat.

Fixpoint lstrip (s : string) : string :=
  match s with
  | String c r => if is_space c then lstrip r else s
  | EmptyString => EmptyString
  end.

Definition rev_string (s : string) : string :=
  string_of_list_ascii (List.rev (list_ascii_of_string s)).

Definition rstrip (s : string) : string := rev_string (lstrip (rev_string s)).

(** [s.strip()] *)
Definition strip (s : string) : string := rstrip (lstrip s).

(** [s.startswith(p)] *)
Definition startswith (s p : string) : bool := String.prefix p s.

(** [needle in s] *)
Fixpoint contains (needle s : string) : bool :=
  String.prefix needle s ||
  match s with
  | String _ r => contains needle r
  | EmptyString => false
  end.

(** [s.split('\n')] *)
Fixpoint split_lines (s : string) : list string :=
  match s with
  | EmptyString => [EmptyString]
  | String c r =>
      if Ascii.eqb c nl then EmptyString :: split_lines r
      else match split_lines r with
           | l :: ls => String c l :: ls
           | [] => [String c EmptyString]
           end
  end.

(** [sep.join(parts)] *)
Fixpoint join (sep : string) (parts : list string) : string :=
  match parts with
  | [] => EmptyString
  | [x] => x
  | x :: rest => x ++ sep ++ join sep rest
  end.

(** [s.count('\n')] *)
Fixpoint count_nl (s : string) : nat :=
  match s with
  | EmptyString => 0
  | String c r => ((if Ascii.eqb c nl then 1 else 0) + count_nl r)%nat
  end.

(** [s[:n]] *)
Definition take (n : nat) (s : string) : string := substring 0 n s.

(** [s[a:b]] for [0 <= a <= b] *)
Definition slice (a b : nat) (s : string) : string := substring a (b - a) s.

(** [s.rfind('\n', 0, stop) + 1]: the offset just after the last line feed
    before [stop], 0 when there is none. *)
Fixpoint after_last_nl_from (pos stop acc : nat) (s : string) : nat :=
  match stop, s with
  | S stop', String c r =>
      after_last_nl_from (S pos) stop' (if Ascii.eqb c nl then S pos else acc) r
  | _, _ => acc
  end.

Definition after_last_nl (stop : nat) (s : string) : nat :=
  after_last_nl_from 0 stop 0 s.

(** [int(ds)] for a run of decimal digits. *)
Definition int_of_digits (ds : list ascii) : Z :=
  fold_left (fun acc c => 10 * acc + Z.of_nat (nat_of_ascii c - 48)) ds 0.

End Py.

(* ===================================================================== *)
(** * agent/tools.py: the project-root sandbox *)
(* ===================================================================== *)

Module Tools.

(** A resolved absolute path: its components below the file-system root. *)
Abbreviation RPath := (list string).

(** [str(p)] *)
Definition path_str (p : RPath) : string := "/" ++ Py.join "/" p.

(** [p.parent]; the root is its own parent. *)
Definition parent (p : RPath) : RPath := removelast p.

(** [p.parents]: the proper ancestors, nearest first, down to the root. *)
Fixpoint proper_prefixes (p : RPath) : list RPath :=
  match p with
  | [] => []
  | c :: p' => [] :: List.map (cons c) (proper_prefixes p')
  end.

Definition parents (p : RPath) : list RPath := List.rev (proper_prefixes p).

Definition rpath_eqb (p q : RPath) : bool := bool_decide (p = q).

Definition rpath_in (p : RPath) (l : list RPath) : bool :=
  List.existsb (rpath_eqb p) l.

(** [q] is the directory [r] or lies below it. *)
Definition inside (r q : RPath) : Prop := exists rest, q = r ++ rest.

(** What a resolved path names on disk.  [Unreadable e] is a regular file
    whose [open(..., 'r').read()] raises [e] (no permission, bytes that are
    not UTF-8). *)
Inductive Entry : Type :=
| Dir
| Regular (text : string)
| Unreadable (e : Exn).

(** The file tree. The file-system root always exists. *)
Abbreviation FS := (gmap (list string) Entry).

(** [p.exists()] *)
Definition exists_ (fs : FS) (p : RPath) : bool :=
  match p with
  | [] => true
  | _ => bool_decide (is_Some (fs !! p))
  end.

(** [p.is_dir()] *)
Definition is_dir (fs : FS) (p : RPath) : bool :=
  match p with
  | [] => true
  | _ => match fs !! p with Some Dir => true | _ => false end
  end.

(** [p.is_file()] *)
Definition is_file (fs : FS) (p : RPath) : bool :=
  match fs !! p with
  | Some (Regular _) | Some (Unreadable _) => true
  | _ => false
  end.

(** [with open(p, 'r', encoding='utf-8') as f: f.read()] *)
Definition open_read (fs : FS) (p : RPath) : result string :=
  match fs !! p with
  | Some (Regular text) => Ok text
  | Some (Unreadable e) => Raise e
  | Some Dir => Raise (OSError "Is a directory")
  | None =>
      match p with
      | [] => Raise (OSError "Is a directory")
      | _ => Raise (OSError "No such file or directory")
      end
  end.

(** One level of [mkdir(exist_ok=True)] below an existing directory. *)
Definition mkdir1 (fs : FS) (d : RPath) : result FS :=
  match d with
  | [] => Ok fs
  | _ =>
      match fs !! d with
      | Some Dir => Ok fs
      | Some _ => Raise (OSError "File exists")
      | None => Ok (<[d := Dir]> fs)
      end
  end.

Fixpoint mkdir_chain (fs : FS) (ds : list RPath) : result FS :=
  match ds with
  | [] => Ok fs
  | d :: ds' =>
      match mkdir1 fs d with
      | Ok fs' => mkdir_chain fs' ds'
      | Raise e => Raise e
      end
  end.

(** [d.mkdir(parents=True, exist_ok=True)]: every missing ancestor is
    created, top down; a regular file on the way raises. *)
Definition mkdir_parents (fs : FS) (d : RPath) : result FS :=
  mkdir_chain fs (proper_prefixes d ++ [d]).

(** [with open(p, 'w', encoding='utf-8') as f: f.write(content)] *)
Definition open_write (fs : FS) (p : RPath) (content : string) : result FS :=
  match p with
  | [] => Raise (OSError "Is a directory")
  | _ =>
      match fs !! p with
      | Some Dir => Raise (OSError "Is a directory")
      | _ =>
          if is_dir fs (parent p)
          then Ok (<[p := Regular content]> fs)
          else Raise (OSError "No such file or directory")
      end
  end.

(** The exception of the sandbox check. *)
Definition escape : Exn := ValueError "Attempt to write outside project root".

Section Sandbox.

(** [PROJECT_ROOT] stands for [PROJECT_ROOT.resolve()], and
    [resolve_under_root path] for [(PROJECT_ROOT / path).resolve()]: the
    operating system's answer, which follows symbolic links and folds
    [..]. *)
Variable PROJECT_ROOT : RPath.
Variable resolve_under_root : string -> RPath.

(** [safe_path_for_project] *)
Definition safe_path_for_project (path : string) : result RPath :=
  let p := resolve_under_root path in
  if negb (rpath_in PROJECT_ROOT (parents p))
     && negb (rpath_eqb PROJECT_ROOT (parent p))
     && negb (rpath_eqb PROJECT_ROOT p)
  then Raise escape
  else Ok p.

(** [write_file]: the returned message or the exception, and the file tree
    it leaves. *)
Definition write_file (path content : string) (fs : FS) : result string * FS :=
  match safe_path_for_project path with
  | Raise e => (Raise e, fs)
  | Ok p =>
      match mkdir_parents fs (parent p) with
      | Raise e => (Raise e, fs)
      | Ok fs1 =>
          match open_write fs1 p content with
          | Raise e => (Raise e, fs1)
          | Ok fs2 => (Ok ("WROTE:" ++ path_str p)%string, fs2)
          end
      end
  end.

(** [read_file] *)
Definition read_file (path : string) (fs : FS) : result string :=
  let* p := safe_path_for_project path in
  if negb (exists_ fs p) then Ok EmptyString else open_read fs p.

End Sandbox.

(** ** The security scanner *)

(** The entries of [SECURITY_PATTERNS] and [SECURITY_CHECKS]: a category
    and its regular expressions, as raw pattern text. *)
Definition q1 : string := "[" ++ Py.dq ++ "\']".
Definition nq : string := "[^" ++ Py.dq ++ "\']".

Definition SECURITY_PATTERNS : list (string * list string) :=
  [ ("api_keys",
     [ "api[_-]?key\s*=\s*" ++ q1 ++ "([a-zA-Z0-9_\-]{20,})" ++ q1;
       "apikey\s*=\s*" ++ q1 ++ "([a-zA-Z0-9_\-]{20,})" ++ q1;
       "api[_-]?secret\s*=\s*" ++ q1 ++ "([a-zA-Z0-9_\-]{20,})" ++ q1;
       "access[_-]?token\s*=\s*" ++ q1 ++ "([a-zA-Z0-9_\-]{20,})" ++ q1;
       "auth[_-]?token\s*=\s*" ++ q1 ++ "([a-zA-Z0-9_\-]{20,})" ++ q1;
       "Bearer\s+[a-zA-Z0-9_\-\.]{20,}" ]);
    ("credentials",
     [ "password\s*=\s*" ++ q1 ++ "(?!.*\{|.*process\.env|.*os\.getenv)(" ++ nq ++ "+)" ++ q1;
       "passwd\s*=\s*" ++ q1 ++ "(?!.*\{|.*process\.env|.*os\.getenv)(" ++ nq ++ "+)" ++ q1;
       "pwd\s*=\s*" ++ q1 ++ "(?!.*\{|.*process\.env|.*os\.getenv)(" ++ nq ++ "+)" ++ q1;
       "username\s*=\s*" ++ q1 ++ "(?!.*\{|.*process\.env|.*os\.getenv)(" ++ nq ++ "+)" ++ q1 ]);
    ("database_urls",
     [ "(mongodb|mysql|postgresql|redis)://[^:]+:[^@]+@";
       "DATABASE_URL\s*=\s*" ++ q1 ++ "(?!.*process\.env|.*os\.getenv)(" ++ nq ++ "+)" ++ q1;
       "DB_PASSWORD\s*=\s*" ++ q1 ++ "(?!.*process\.env|.*os\.getenv)(" ++ nq ++ "+)" ++ q1 ]);
    ("private_keys",
     [ "-----BEGIN\s+(RSA|DSA|EC|OPENSSH)\s+PRIVATE\s+KEY-----";
       "private[_-]?key\s*=\s*" ++ q1 ++ "(" ++ nq ++ "{20,})" ++ q1 ]);
    ("aws_credentials",
     [ "AKIA[0-9A-Z]{16}";
       "aws[_-]?access[_-]?key[_-]?id\s*=\s*" ++ q1 ++ "([A-Z0-9]{20})" ++ q1;
       "aws[_-]?secret[_-]?access[_-]?key\s*=\s*" ++ q1 ++ "([a-zA-Z0-9/+=]{40})" ++ q1 ]);
    ("jwt_secrets",
     [ "jwt[_-]?secret\s*=\s*" ++ q1 ++ "(?!.*process\.env|.*os\.getenv)(" ++ nq ++ "{10,})" ++ q1;
       "secret[_-]?key\s*=\s*" ++ q1 ++ "(?!.*process\.env|.*os\.getenv)(" ++ nq ++ "{10,})" ++ q1 ])
  ]%string.

Definition SECURITY_CHECKS : list (string * list string) :=
  [ ("sql_injection",
     [ "execute\(" ++ q1 ++ ".*\+.*" ++ q1;
       "query\(" ++ q1 ++ ".*\+.*" ++ q1;
       "SELECT\s+.*\+.*FROM";
       "INSERT\s+.*\+.*VALUES";
       "UPDATE\s+.*\+.*SET";
       "DELETE\s+.*\+.*WHERE" ]);
    ("xss_vulnerabilities",
     [ "innerHTML\s*=\s*[^;]*(?!sanitize|escape|encode)";
       "document\.write\(";
       "eval\(";
       "dangerouslySetInnerHTML" ]);
    ("insecure_storage",
     [ "localStorage\.setItem\(" ++ q1 ++ nq ++ "*(?:password|token|secret|key)";
       "sessionStorage\.setItem\(" ++ q1 ++ nq ++ "*(?:password|token|secret|key)" ]);
    ("cors_issues",
     [ "Access-Control-Allow-Origin\s*:\s*" ++ q1 ++ "?\*" ++ q1 ++ "?";
       "cors\(\{\s*origin\s*:\s*" ++ q1 ++ "?\*" ++ q1 ++ "?" ])
  ]%string.

(** One finding: the dict with keys [file], [category], [line], [issue],
    [severity]. *)
Record Issue : Type := mkIssue {
  i_file : string;
  i_category : string;
  i_line : Z;
  i_issue : string;
  i_severity : string
}.

(** The dict [scan_project_security] returns. *)
Record ScanResult : Type := mkScan {
  scan_issues : list Issue;
  scan_passed : bool;
  scan_summary : string;
  scan_total_issues : Z
}.

(** [category.replace("_", " ")] *)
Fixpoint underscores_to_spaces (s : string) : string :=
  match s with
  | EmptyString => EmptyString
  | String c r =>
      String (if Ascii.eqb c "_"%char then " "%char else c) (underscores_to_spaces r)
  end.

(** [file_path.relative_to(PROJECT_ROOT)] as text; raises outside. *)
Fixpoint strip_root (root p : RPath) : option RPath :=
  match root, p with
  | [], _ => Some p
  | r :: root', c :: p' => if String.eqb r c then strip_root root' p' else None
  | _ :: _, [] => None
  end.

Definition relative_to (root p : RPath) : result string :=
  match strip_root root p with
  | Some rest => Ok (match rest with [] => "." | _ => Py.join "/" rest end)
  | None => Raise (ValueError "is not in the subpath of the project root")
  end.

(** [file_path.suffix]: the last dot of the name and what follows, unless
    the dot leads or ends the name. *)
Fixpoint last_dot_from (pos : nat) (acc : option nat) (s : string) : option nat :=
  match s with
  | EmptyString => acc
  | String c r => last_dot_from (S pos) (if Ascii.eqb c "."%char then Some pos else acc) r
  end.

Definition suffix (p : RPath) : string :=
  let name := List.last p EmptyString in
  match last_dot_from 0 None name with
  | Some i =>
      if (0 <? i)%nat && (i <? String.length name - 1)%nat
      then substring i (String.length name - i) name
      else EmptyString
  | None => EmptyString
  end.

Section Scanner.

(** [re.finditer(pattern, content, re.IGNORECASE | re.MULTILINE)]: the
    [(match.start(), match.end())] of the matches, in order.  The regular
    expression engine is Python's. *)
Variable finditer : string -> string -> list (nat * nat).

Variable PROJECT_ROOT : RPath.

(** The comment test on the text from the start of the match's line to
    the end of the match. *)
Definition in_comment (content : string) (m : nat * nat) : bool :=
  let line_start := Py.after_last_nl (fst m) content in
  let line_content := Py.slice line_start (snd m) content in
  Py.startswith (Py.strip line_content) "#" ||
  Py.startswith (Py.strip line_content) "//".

(** The innermost loop, [for match in matches], with the list of issues
    it appends to; the second component is the exception that ended it. *)
Fixpoint scan_matches (file_path : RPath) (category label severity content : string)
    (matches : list (nat * nat)) (issues : list Issue) : list Issue * option Exn :=
  match matches with
  | [] => (issues, None)
  | m :: rest =>
      if in_comment content m
      then scan_matches file_path category label severity content rest issues
      else
        match relative_to PROJECT_ROOT file_path with
        | Raise e => (issues, Some e)
        | Ok rel =>
            scan_matches file_path category label severity content rest
              (issues ++
               [ {| i_file := rel;
                    i_category := category;
                    i_line := Z.of_nat (Py.count_nl (Py.take (fst m) content)) + 1;
                    i_issue := ("Potential " ++ underscores_to_spaces category ++ label)%string;
                    i_severity := severity |} ])
        end
  end.

(** [for pattern in patterns] *)
Fixpoint scan_patterns (file_path : RPath) (category label severity content : string)
    (patterns : list string) (issues : list Issue) : list Issue * option Exn :=
  match patterns with
  | [] => (issues, None)
  | pattern :: rest =>
      match scan_matches file_path category label severity content
              (finditer pattern content) issues with
      | (issues', None) =>
          scan_patterns file_path category label severity content rest issues'
      | stopped => stopped
      end
  end.

(** [for category, patterns in table.items()] *)
Fixpoint scan_table (file_path : RPath) (label severity content : string)
    (table : list (string * list string)) (issues : list Issue)
  : list Issue * option Exn :=
  match table with
  | [] => (issues, None)
  | (category, patterns) :: rest =>
      match scan_patterns file_path category label severity content patterns issues with
      | (issues', None) => scan_table file_path label severity content rest issues'
      | stopped => stopped
      end
  end.

(** The body of the [try] of [scan_file_security], started on the empty
    list [issues]. *)
Definition scan_file_try (fs : FS) (file_path : RPath) : list Issue * option Exn :=
  match open_read fs file_path with
  | Raise e => ([], Some e)
  | Ok content =>
      match scan_table file_path " exposed" "HIGH" content SECURITY_PATTERNS [] with
      | (issues, None) =>
          scan_table file_path " vulnerability" "MEDIUM" content SECURITY_CHECKS issues
      | stopped => stopped
      end
  end.

(** [scan_file_security]: [except Exception: pass], then [return issues]. *)
Definition scan_file_security (fs : FS) (file_path : RPath) : list Issue :=
  fst (scan_file_try fs file_path).

Definition extensions : list string :=
  [".py"; ".js"; ".ts"; ".jsx"; ".tsx"; ".java"; ".php"; ".rb"; ".go"].

(** [PROJECT_ROOT.rglob('*')]: everything strictly below the root. *)
Definition rglob (fs : FS) : list RPath :=
  List.filter (fun p => match strip_root PROJECT_ROOT p with
                        | Some (_ :: _) => true
                        | _ => false
                        end)
              (List.map fst (map_to_list fs)).

(** The files the scan opens. *)
Definition scan_targets (fs : FS) : list RPath :=
  List.filter (fun p => is_file fs p &&
                        List.existsb (String.eqb (suffix p)) extensions)
              (rglob fs).

(** [scan_project_security] *)
Definition scan_project_security (fs : FS) : ScanResult :=
  if negb (exists_ fs PROJECT_ROOT)
  then {| scan_issues := []; scan_passed := true;
          scan_summary := "No files to scan"; scan_total_issues := 0 |}
  else
    let all_issues := List.concat (List.map (scan_file_security fs) (scan_targets fs)) in
    let passed := (length all_issues =? 0)%nat in
    {| scan_issues := all_issues;
       scan_passed := passed;
       scan_summary :=
         if passed then "Security scan passed. No issues detected"
         else ("Found " ++ pretty (length all_issues) ++ " security issues")%string;
       scan_total_issues := Z.of_nat (length all_issues) |}.

End Scanner.

(** [Path.resolve] on a tree without symbolic links: [.] and empty
    components vanish and [..] steps up, never above the root; an absolute
    right operand of [/] replaces the left one. *)
Fixpoint split_slash (s : string) : list string :=
  match s with
  | EmptyString => [EmptyString]
  | String c r =>
      if Ascii.eqb c "/"%char then EmptyString :: split_slash r
      else match split_slash r with
           | l :: ls => String c l :: ls
           | [] => [String c EmptyString]
           end
  end.

Definition walk (from : RPath) (components : list string) : RPath :=
  fold_left (fun acc c =>
               if String.eqb c EmptyString || String.eqb c "." then acc
               else if String.eqb c ".." then removelast acc
               else acc ++ [c]) components from.

Definition lexical_resolve (root : RPath) (path : string) : RPath :=
  if Py.startswith path "/" then walk [] (split_slash path)
  else walk root (split_slash path).

End Tools.

(* ===================================================================== *)
(** * agent/states.py *)
(* ===================================================================== *)

Module States.

Record File : Type := mkFile { path : string; purpose : string }.

Record Plan : Type := mkPlan {
  name : string;
  description : string;
  techstack : string;
  features : list string;
  files : list File;
  dependencies : list string
}.

Record ImplementationTask : Type := mkTask {
  filepath : string;
  task_description : string
}.

Record TaskPlan : Type := mkTaskPlan {
  implementation_steps : list ImplementationTask
}.

Record CoderState : Type := mkCoderState {
  task_plan : TaskPlan;
  current_step_idx : Z;
  current_file_content : option string;
  retry_attempts : Z
}.

Record SecurityIssue : Type := mkSecurityIssue {
  file : string;
  line : Z;
  severity : string;
  issue : string;
  fix_ : string
}.

Record SecurityValidation : Type := mkSecurityValidation {
  passed : bool;
  issues : list SecurityIssue;
  recommendations : list string
}.

End States.

(* ===================================================================== *)
(** * agent/graph.py *)
(* ===================================================================== *)

Module Graph.
Import States.

(** ** The state dict *)

(** The values the nodes store under the keys of the state. *)
Inductive Value : Type :=
| VNone
| VBool (b : bool)
| VInt (z : Z)
| VStr (s : string)
| VPlan (p : Plan)
| VTaskPlan (tp : TaskPlan)
| VCoderState (cs : CoderState)
| VSecurityValidation (sv : SecurityValidation).

Abbreviation State := (gmap string Value).

(** [state.get(key)] *)
Definition get (key : string) (state : State) : Value :=
  default VNone (state !! key).

(** [state.get(key, dflt)] *)
Definition get_or (key : string) (dflt : Value) (state : State) : Value :=
  default dflt (state !! key).

(** Python truthiness, as [if not v] tests it. *)
Definition truthy (v : Value) : bool :=
  match v with
  | VNone => false
  | VBool b => b
  | VInt z => negb (z =? 0)
  | VStr s => negb (String.eqb s EmptyString)
  | VSecurityValidation _ | VPlan _ | VTaskPlan _ | VCoderState _ => true
  end.

(** [v + 1]; [bool] is a subclass of [int]. *)
Definition plus_one (v : Value) : result Z :=
  match v with
  | VInt z => Ok (z + 1)
  | VBool b => Ok ((if b then 1 else 0) + 1)
  | _ => Raise (TypeError "unsupported operand type(s) for +")
  end.

(** [steps[i]] with Python's negative indices. *)
Definition py_index {A} (l : list A) (i : Z) : result A :=
  let n := Z.of_nat (length l) in
  let j := if i <? 0 then i + n else i in
  if (j <? 0) || (n <=? j) then Raise (IndexError "list index out of range")
  else match List.nth_error l (Z.to_nat j) with
       | Some a => Ok a
       | None => Raise (IndexError "list index out of range")
       end.

(** [enforce_character_limit] of the rate limiter module; [len] of a value
    that is not a string raises. *)
Definition enforce_character_limit (text : Value) (max_chars : nat) : result string :=
  match text with
  | VStr s => Ok (if (max_chars <? String.length s)%nat then Py.take max_chars s else s)
  | _ => Raise (TypeError "object has no len()")
  end.

(** ** The back-off of the coder's retry *)

Definition strip_prefix (p s : string) : option string :=
  if String.prefix p s
  then Some (substring (String.length p) (String.length s - String.length p) s)
  else None.

Fixpoint take_digits (s : string) : list ascii :=
  match s with
  | String c r => if Py.is_digit c then c :: take_digits r else []
  | EmptyString => []
  end.

(** The pattern [retry_delay\s*\{\s*seconds:\s*(\d+)] anchored at the head
    of [s]; the value of the group, read by [int]. *)
Definition match_retry_delay (s : string) : option Z :=
  match strip_prefix "retry_delay" s with
  | None => None
  | Some s1 =>
      match strip_prefix "{" (Py.lstrip s1) with
      | None => None
      | Some s2 =>
          match strip_prefix "seconds:" (Py.lstrip s2) with
          | None => None
          | Some s3 =>
              match take_digits (Py.lstrip s3) with
              | [] => None
              | ds => Some (Py.int_of_digits ds)
              end
          end
      end
  end.

(** [re.search] of that pattern: the leftmost match. *)
Fixpoint search_retry_delay (s : string) : option Z :=
  match match_retry_delay s with
  | Some d => Some d
  | None =>
      match s with
      | String _ r => search_retry_delay r
      | EmptyString => None
      end
  end.

(** The quota test ["429" in str(e) or "ResourceExhausted" in str(e)]. *)
Definition quota_exhausted (err : string) : bool :=
  Py.contains "429" err || Py.contains "ResourceExhausted" err.

(** [wait_seconds] as the handler computes it from [str(e)] and the
    already incremented [coder_state.retry_attempts]. *)
Definition wait_seconds (err : string) (retry_attempts : Z) : Q :=
  match search_retry_delay err with
  | Some seconds => inject_Z (seconds + 2)
  | None =>
      if quota_exhausted err
      then Qmin (5 * 2 ^ (retry_attempts - 1)) 120
      else 5%Q
  end.

(** ** The coder *)

(** Removal of a Markdown code fence around the generated text. *)
Definition strip_code_fence (code_content : string) : string :=
  if Py.startswith code_content "```" then
    let lines := Py.split_lines code_content in
    let lines :=
      match lines with
      | l0 :: rest => if Py.startswith l0 "```" then rest else lines
      | [] => lines
      end in
    let lines :=
      match lines with
      | [] => lines
      | _ => if Py.startswith (List.last lines EmptyString) "```"
             then removelast lines else lines
      end in
    Py.join Py.nl_str lines
  else code_content.

(** What the world answers during one call of [coder_agent]. *)
Record CoderEnv : Type := mkCoderEnv {
  read_file : string -> result string;
  rate_limit_check : bool * Q;
  llm_invoke : result string;
  write_file : string -> string -> result string;
  requirements : result unit
}.

(** What a call of [coder_agent] does: the dict it returns or the
    exception it lets escape, and the sleeps it took. *)
Record CoderRun : Type := mkCoderRun {
  ret : result State;
  slept : list Q
}.

Definition coder_return (coder_state : CoderState) (status : string) (state : State)
  : State :=
  <["coder_state" := VCoderState coder_state]>
  (<["status" := VStr status]>
  (<["plan" := get "plan" state]>
  (<["task_plan" := get "task_plan" state]> ∅))).

(** The coder state the call works on: the one in the state, or a fresh
    one on the first call. *)
Definition initial_coder_state (state : State) : result CoderState :=
  match get "coder_state" state with
  | VCoderState cs => Ok cs
  | VNone =>
      match get "task_plan" state with
      | VNone => Raise (ValueError
          "No task_plan found in state. Architect agent did not run or failed.")
      | VTaskPlan tp =>
          Ok {| task_plan := tp; current_step_idx := 0;
                current_file_content := None; retry_attempts := 0 |}
      | _ => Raise (ValueError "task_plan is invalid")
      end
  | _ => Raise (AttributeError "object has no attribute 'task_plan'")
  end.

(** The body of the [try]: the admission check, the generation and the
    write.  Returns the sleeps taken and the outcome. *)
Definition coder_try (env : CoderEnv) (filepath : string) : list Q * result unit :=
  let '(can_proceed, wait_time) := rate_limit_check env in
  let naps := if can_proceed then [] else [(wait_time + 1)%Q] in
  match llm_invoke env with
  | Raise e => (naps, Raise e)
  | Ok content =>
      let code_content := strip_code_fence (Py.strip content) in
      match write_file env filepath code_content with
      | Raise e => (naps, Raise e)
      | Ok _ => (naps, Ok tt)
      end
  end.

(** [coder_agent] *)
Definition coder_agent (env : CoderEnv) (state : State) : CoderRun :=
  match initial_coder_state state with
  | Raise e => {| ret := Raise e; slept := [] |}
  | Ok coder_state =>
      let steps := implementation_steps (task_plan coder_state) in
      if (length steps =? 0)%nat then
        {| ret := Raise (ValueError
             "Task plan is empty. Architect agent did not supply implementation steps.");
           slept := [] |}
      else if current_step_idx coder_state >=? Z.of_nat (length steps) then
        {| ret := (let* _ := requirements env in
                   Ok (coder_return coder_state "CODING_DONE" state));
           slept := [] |}
      else
        match py_index steps (current_step_idx coder_state) with
        | Raise e => {| ret := Raise e; slept := [] |}
        | Ok current_task =>
            match read_file env (filepath current_task) with
            | Raise e => {| ret := Raise e; slept := [] |}
            | Ok existing_content =>
                match coder_try env (filepath current_task) with
                | (naps, Ok _) =>
                    let coder_state' :=
                      {| task_plan := task_plan coder_state;
                         current_step_idx := current_step_idx coder_state + 1;
                         current_file_content := current_file_content coder_state;
                         retry_attempts := 0 |} in
                    {| ret := Ok (coder_return coder_state'
                                    (if current_step_idx coder_state' >=?
                                        Z.of_nat (length steps)
                                     then "CODING_DONE" else "CODING_IN_PROGRESS")
                                    state);
                       slept := naps |}
                | (naps, Raise e) =>
                    let coder_state' :=
                      {| task_plan := task_plan coder_state;
                         current_step_idx := current_step_idx coder_state;
                         current_file_content := current_file_content coder_state;
                         retry_attempts := retry_attempts coder_state + 1 |} in
                    {| ret := Ok (coder_return coder_state' "CODING_RETRY" state);
                       slept := naps ++
                                [wait_seconds (exn_str e) (retry_attempts coder_state')] |}
                end
            end
        end
  end.

(** ** The planner and the architect *)

Definition no_files_error : Exn := ValueError "Planner returned a plan with no files".

Record PlannerEnv : Type := mkPlannerEnv {
  plan_response : result (option Plan);
  set_project_root : result string;
  create_project_readme : result string
}.

(** [planner_agent] *)
Definition planner_agent (env : PlannerEnv) (state : State) : result State :=
  let optimized_prompt := get_or "optimized_prompt" (get "user_prompt" state) state in
  let* _ := enforce_character_limit optimized_prompt 3000 in
  let* resp := plan_response env in
  match resp with
  | None => Raise (ValueError "Planner did not return a valid response.")
  | Some resp =>
      if (length (files resp) =? 0)%nat
      then Raise no_files_error
      else
        let* _ := set_project_root env in
        let* _ := create_project_readme env in
        Ok (<["plan" := VPlan resp]> ∅)
  end.

Record ArchitectEnv : Type := mkArchitectEnv {
  task_plan_response : result (option TaskPlan)
}.

(** [architect_agent] *)
Definition architect_agent (env : ArchitectEnv) (state : State) : result State :=
  let plan := get "plan" state in
  if negb (truthy plan) then Raise (ValueError "No plan found in state")
  else
    match plan with
    | VPlan _ =>
        let* resp := task_plan_response env in
        match resp with
        | None => Raise (AttributeError
            "'NoneType' object has no attribute 'implementation_steps'")
        | Some resp =>
            Ok (<["task_plan" := VTaskPlan resp]> (<["plan" := get "plan" state]> ∅))
        end
    | _ => Raise (AttributeError "object has no attribute 'files'")
    end.

(** ** The security stages *)

Record SecurityEnv : Type := mkSecurityEnv {
  scan_project_security : Tools.ScanResult;
  validation_response : result (option SecurityValidation)
}.

(** The validation built from the scan when the model gives none. *)
Definition fallback_validation (scan : Tools.ScanResult) : SecurityValidation :=
  {| passed := false;
     issues :=
       List.map (fun i =>
                   {| file := Tools.i_file i; line := Tools.i_line i;
                      severity := Tools.i_severity i; issue := Tools.i_issue i;
                      fix_ := "Use environment variables for sensitive data" |})
                (List.firstn 5 (Tools.scan_issues scan));
     recommendations := ["Use environment variables for all sensitive configuration"] |}.

Definition security_return (sv : SecurityValidation) (status : string)
    (security_attempts : Value) (state : State) : State :=
  <["security_validation" := VSecurityValidation sv]>
  (<["status" := VStr status]>
  (<["security_attempts" := security_attempts]>
  (<["plan" := get "plan" state]>
  (<["task_plan" := get "task_plan" state]> ∅)))).

(** [security_agent] *)
Definition security_agent (env : SecurityEnv) (state : State) : result State :=
  let security_scan := scan_project_security env in
  if Tools.scan_passed security_scan then
    Ok (security_return {| passed := true; issues := []; recommendations := [] |}
          "SECURITY_PASSED" (get_or "security_attempts" (VInt 0) state) state)
  else
    let security_response :=
      match validation_response env with
      | Ok (Some sv) => sv
      | Ok None | Raise _ => fallback_validation security_scan
      end in
    let* security_attempts := plus_one (get_or "security_attempts" (VInt 0) state) in
    if security_attempts >=? 1
    then Ok (security_return security_response "SECURITY_NEEDS_FIX"
               (VInt security_attempts) state)
    else Ok (security_return security_response "SECURITY_FAILED"
               (VInt security_attempts) state).

Record FixerEnv : Type := mkFixerEnv {
  fix_read_file : string -> result string;
  fix_llm_invoke : SecurityIssue -> result string;
  fix_write_file : string -> string -> result string
}.

(** One turn of the fixer's loop: [true] when the file was rewritten; any
    exception is caught and the loop goes on. *)
Definition fix_issue (env : FixerEnv) (i : SecurityIssue) : bool :=
  match fix_read_file env (file i) with
  | Raise _ => false
  | Ok _ =>
      match fix_llm_invoke env i with
      | Raise _ => false
      | Ok content =>
          match fix_write_file env (file i) (strip_code_fence (Py.strip content)) with
          | Raise _ => false
          | Ok _ => true
          end
      end
  end.

Definition fixer_return (status : string) (state : State) : State :=
  <["status" := VStr status]>
  (<["plan" := get "plan" state]>
  (<["task_plan" := get "task_plan" state]> ∅)).

(** [security_fixer_agent]: the returned dict, and the files rewritten. *)
Definition security_fixer_agent (env : FixerEnv) (state : State)
  : result State * list string :=
  match get "security_validation" state with
  | VSecurityValidation sv =>
      match issues sv with
      | [] => (Ok (fixer_return "SECURITY_PASSED" state), [])
      | _ =>
          (Ok (fixer_return "SECURITY_FIXED" state),
           List.map file (List.filter (fix_issue env) (List.firstn 5 (issues sv))))
      end
  | v =>
      if negb (truthy v) then (Ok (fixer_return "SECURITY_PASSED" state), [])
      else (Raise (AttributeError "object has no attribute 'issues'"), [])
  end.

(** [final_verification_agent] *)
Definition final_verification_agent (state : State) : State :=
  <["status" := VStr "VERIFICATION_COMPLETE"]>
  (<["verification_notes" := VStr "Verification complete - all files generated"]>
  (<["plan" := get "plan" state]>
  (<["task_plan" := get "task_plan" state]>
  (<["coder_state" := get "coder_state" state]>
  (<["security_validation" := get "security_validation" state]>
  (<["security_attempts" := get "security_attempts" state]> ∅)))))).

(** ** The graph *)

Inductive Node : Type :=
| planner | architect | coder | security | security_fixer | final_verification
| END.

Global Instance Node_eq_dec : EqDecision Node.
Proof. solve_decision. Defined.

(** The conditional edge out of [coder]. *)
Definition route_from_coder (s : State) : Node :=
  match get "status" s with
  | VStr status => if String.eqb status "CODING_DONE" then security else coder
  | _ => coder
  end.

(** [route_from_security] *)
Definition route_from_security (state : State) : Node :=
  match get "status" state with
  | VStr status =>
      if String.eqb status "SECURITY_PASSED" then final_verification
      else if String.eqb status "SECURITY_NEEDS_FIX" then security_fixer
      else final_verification
  | _ => final_verification
  end.

(** The edges of [planner_subgraph], compiled as [direct_agent].  ([agent]
    is the same graph behind the clarification node.) *)
Definition next_node (n : Node) (state : State) : Node :=
  match n with
  | planner => architect
  | architect => coder
  | coder => route_from_coder state
  | security => route_from_security state
  | security_fixer => final_verification
  | final_verification => END
  | END => END
  end.

(** What the world answers during one step of the graph. *)
Record Env : Type := mkEnv {
  planner_env : PlannerEnv;
  architect_env : ArchitectEnv;
  coder_env : CoderEnv;
  security_env : SecurityEnv;
  fixer_env : FixerEnv
}.

Definition run_node (n : Node) (env : Env) (state : State) : result State :=
  match n with
  | planner => planner_agent (planner_env env) state
  | architect => architect_agent (architect_env env) state
  | coder => ret (coder_agent (coder_env env) state)
  | security => security_agent (security_env env) state
  | security_fixer => fst (security_fixer_agent (fixer_env env) state)
  | final_verification => Ok (final_verification_agent state)
  | END => Ok state
  end.

(** A run of the compiled graph, [graph.invoke(state, {"recursion_limit":
    n})].  The graph is a [StateGraph(dict)]: the schema declares no keys,
    so the state is a single channel and the dict a node returns is the
    state the next node receives.  That is why every node hands [plan]
    and [task_plan] on by hand, why the coder returns its [coder_state] on
    every call, and why the application looks for a missing plan in the
    result.  [envs k] is the world at step [k].  A step is one node; when
    the limit is used up before [END] the run raises.  The result is the
    list of the nodes run and the final state, or the exception that ended
    the run. *)
Fixpoint invoke_from (recursion_limit : nat) (envs : nat -> Env) (k : nat)
    (n : Node) (state : State) : list Node * result State :=
  if decide (n = END) then ([], Ok state)
  else
    match recursion_limit with
    | O => ([], Raise GraphRecursionError)
    | S limit =>
        match run_node n (envs k) state with
        | Raise e => ([n], Raise e)
        | Ok state' =>
            let '(trace, r) := invoke_from limit envs (S k) (next_node n state') state' in
            (n :: trace, r)
        end
    end.

(** How many more times the fixer can run in a run that is at node [n]. *)
Definition remediation_budget (n : Node) : nat :=
  match n with
  | final_verification | END => 0
  | _ => 1
  end.

(** How often the fixer ran. *)
Definition remediations (trace : list Node) : nat :=
  count_occ Node_eq_dec trace security_fixer.

(** [direct_agent.invoke] *)
Definition direct_agent (recursion_limit : nat) (envs : nat -> Env) (state : State)
  : list Node * result State :=
  invoke_from recursion_limit envs 0 planner state.

(** The coder's self-loop seen from outside: the coder called again and
    again on the state it returned, once per world of [envs]; an escaping
    exception ends the run. *)
Fixpoint coder_invocations (envs : list CoderEnv) (state : State) : result State :=
  match envs with
  | [] => Ok state
  | env :: rest =>
      match ret (coder_agent env state) with
      | Raise e => Raise e
      | Ok state' => coder_invocations rest state'
      end
  end.

(** ** The outcomes of a coder call *)

(** The coder state after a generated and written file. *)
Definition advanced (cs : CoderState) : CoderState :=
  {| task_plan := task_plan cs;
     current_step_idx := current_step_idx cs + 1;
     current_file_content := current_file_content cs;
     retry_attempts := 0 |}.

(** The coder state after a failed attempt. *)
Definition retried (cs : CoderState) : CoderState :=
  {| task_plan := task_plan cs;
     current_step_idx := current_step_idx cs;
     current_file_content := current_file_content cs;
     retry_attempts := retry_attempts cs + 1 |}.

Definition task_count (cs : CoderState) : Z :=
  Z.of_nat (length (implementation_steps (task_plan cs))).

(** The file was generated and written: the cursor moved on by one, the
    retry count is back at zero, and the status is the done marker exactly
    when the cursor reached the task count. *)
Definition success (cs : CoderState) (r : CoderRun) : Prop :=
  exists state' cs',
    ret r = Ok state' /\
    get "coder_state" state' = VCoderState cs' /\
    task_plan cs' = task_plan cs /\
    current_step_idx cs' = current_step_idx cs + 1 /\
    retry_attempts cs' = 0 /\
    (get "status" state' = VStr "CODING_DONE" /\
       current_step_idx cs' = task_count cs \/
     get "status" state' = VStr "CODING_IN_PROGRESS" /\
       current_step_idx cs' <> task_count cs).

(** The attempt failed and will be made again: cursor unchanged, retry
    count up by one, status the retry marker, which routes back to the
    coder. *)
Definition transient_failure (cs : CoderState) (r : CoderRun) : Prop :=
  exists state' cs',
    ret r = Ok state' /\
    get "coder_state" state' = VCoderState cs' /\
    task_plan cs' = task_plan cs /\
    current_step_idx cs' = current_step_idx cs /\
    retry_attempts cs' = retry_attempts cs + 1 /\
    get "status" state' = VStr "CODING_RETRY" /\
    route_from_coder state' = coder.


(** What a returned call preserves, from the coder state [cs] it started
    on to the state [state'] it returns. *)
Definition carried (cs : CoderState) (state' : State) (cs' : CoderState) : Prop :=
  get "coder_state" state' = VCoderState cs' /\
  task_plan cs' = task_plan cs /\
  current_step_idx cs <= current_step_idx cs' <= task_count cs /\
  (get "status" state' = VStr "CODING_DONE" <-> current_step_idx cs' = task_count cs) /\
  (route_from_coder state' = security <-> current_step_idx cs' = task_count cs) /\
  (current_step_idx cs' < task_count cs -> route_from_coder state' = coder).



(** The reading of "one task per file, or the run fails": whatever the
    architect returns for a plan holds as many tasks as the plan has
    files. *)
Definition architect_checks_count (env : ArchitectEnv) (state : State) : Prop :=
  forall p state',
    get "plan" state = VPlan p ->
    architect_agent env state = Ok state' ->
    exists tp, get "task_plan" state' = VTaskPlan tp /\
               length (implementation_steps tp) = length (files p).

End Graph.

(* ===================================================================== *)
(** * Concrete projects and runs *)
(* ===================================================================== *)

(** The inputs on which the theorems below are exercised. *)
Module Examples.
Import Tools States Graph.

(** A project at /home/proj. *)
Definition demo_root : RPath := ["home"; "proj"].
Definition demo_fs : FS :=
  <[["home"; "proj"; "notes.txt"] := Regular "todo"]>
  (<[["home"; "proj"] := Dir]> (<[["home"] := Dir]> ∅)).

(** A stand-in for the regular expression engine: the password pattern
    matches the first eight characters of a text that starts with the word
    password; nothing else matches. *)
Definition demo_finditer (pattern content : string) : list (nat * nat) :=
  if Py.startswith pattern "password" && Py.startswith content "password"
  then [(0, 8)%nat] else [].


(** The same project with the file readable. *)
Definition open_fs : FS :=
  <[["home"; "proj"; "app.py"] := Regular "password = 'hunter2'"]>
  (<[["home"; "proj"] := Dir]> (<[["home"] := Dir]> ∅)).

(** The tools as the nodes call them, on a given project. *)
Definition tool_read (root : RPath) (fs : FS) (path : string) : result string :=
  Tools.read_file root (lexical_resolve root) path fs.
Definition tool_write (root : RPath) (fs : FS) (path content : string) : result string :=
  fst (Tools.write_file root (lexical_resolve root) path content fs).

(** A world in which the model answers with a fenced one-liner. *)
Definition coder_world (fs : FS) : CoderEnv :=
  {| read_file := tool_read demo_root fs;
     rate_limit_check := (true, 0%Q);
     llm_invoke :=
       Ok ("```python" ++ Py.nl_str ++ "print(1)" ++ Py.nl_str ++ "```")%string;
     write_file := tool_write demo_root fs;
     requirements := Ok tt |}.

Definition one_task (path : string) : TaskPlan :=
  {| implementation_steps :=
       [ {| filepath := path; task_description := "the entry point" |} ] |}.


Definition fresh (path : string) : CoderState :=
  {| task_plan := one_task path; current_step_idx := 0;
     current_file_content := None; retry_attempts := 0 |}.

(** The scenario of a two-file project: app.py and requirements.txt. *)
Definition two_files : Plan :=
  {| name := "todo"; description := "a todo list"; techstack := "python";
     features := ["add"; "list"];
     files := [ {| path := "app.py"; purpose := "the application" |};
                {| path := "requirements.txt"; purpose := "the dependencies" |} ];
     dependencies := [] |}.

Definition two_tasks : TaskPlan :=
  {| implementation_steps :=
       [ {| filepath := "app.py"; task_description := "write the application" |};
         {| filepath := "requirements.txt"; task_description := "list the dependencies" |} ] |}.


Definition planner_world (p : Plan) : PlannerEnv :=
  {| plan_response := Ok (Some p);
     set_project_root := Ok "/home/todo";
     create_project_readme := Ok "/home/todo/README.md" |}.

(** An architect whose model returns a single task for any plan. *)
Definition short_architect : ArchitectEnv :=
  {| task_plan_response := Ok (Some (one_task "app.py")) |}.

Definition architect_world : ArchitectEnv :=
  {| task_plan_response := Ok (Some two_tasks) |}.

(** A world in which the provider refuses the generation for quota. *)
Definition quota_world (fs : FS) : CoderEnv :=
  {| read_file := tool_read demo_root fs;
     rate_limit_check := (true, 0%Q);
     llm_invoke := Raise (ProviderError "429 ResourceExhausted");
     write_file := tool_write demo_root fs;
     requirements := Ok tt |}.

(** The state the architect hands over for the two-file project, and the
    states after the first file and after both. *)
Definition two_tasks_input : State :=
  <["task_plan" := VTaskPlan two_tasks]> (<["plan" := VPlan two_files]> ∅).

Definition after_first_file : State :=
  coder_return {| task_plan := two_tasks; current_step_idx := 1;
                  current_file_content := None; retry_attempts := 0 |}
    "CODING_IN_PROGRESS" two_tasks_input.

Definition after_both_files : State :=
  coder_return {| task_plan := two_tasks; current_step_idx := 2;
                  current_file_content := None; retry_attempts := 0 |}
    "CODING_DONE" two_tasks_input.

(** The scan of a project whose app.py holds a password in clear. *)
Definition failing_scan : ScanResult :=
  Tools.scan_project_security demo_finditer demo_root open_fs.

Definition security_world : SecurityEnv :=
  {| scan_project_security := failing_scan;
     validation_response := Ok None |}.

Definition fixer_world (fs : FS) : FixerEnv :=
  {| fix_read_file := tool_read demo_root fs;
     fix_llm_invoke := fun _ => Ok "password = os.getenv('PASSWORD')";
     fix_write_file := tool_write demo_root fs |}.

(** One world for every step of the scenario. *)
Definition scenario_world : Env :=
  {| planner_env := planner_world two_files;
     architect_env := architect_world;
     coder_env := coder_world demo_fs;
     security_env := security_world;
     fixer_env := fixer_world open_fs |}.

Definition scenario_input : State := <["user_prompt" := VStr "a todo list"]> ∅.

End Examples.

(* ===================================================================== *)
(** * agent/rate_limiter.py: the token counter and the configuration *)
(* ===================================================================== *)

Module TokenCounter.

(** [class TokenCounter]: [self.total_tokens] and [self.request_tokens],
    the list of [{'count': .., 'timestamp': ..}]. *)
Record t : Type := mk { total_tokens : Z; request_tokens : list (Z * Q) }.

(** [TokenCounter()] *)
Definition init : t := {| total_tokens := 0; request_tokens := [] |}.

(** [add_tokens(count)], at the clock reading [now]. *)
Definition add_tokens (count : Z) (now : Q) (tc : t) : t :=
  {| total_tokens := total_tokens tc + count;
     request_tokens := request_tokens tc ++ [(count, now)] |}.

(** [get_total] *)
Definition get_total (tc : t) : Z := total_tokens tc.

(** The generator's test [req['timestamp'] > hour_ago]. *)
Definition within_hour (current_time : Q) (req : Z * Q) : bool :=
  if Qlt_le_dec (current_time - 3600) (snd req) then true else false.

(** [sum(...)] over a list of integers. *)
Definition sum_counts (reqs : list (Z * Q)) : Z :=
  fold_right (fun req acc => fst req + acc) 0 reqs.

(** [get_session_tokens], at the clock reading [current_time]. *)
Definition get_session_tokens (current_time : Q) (tc : t) : Z :=
  sum_counts (List.filter (within_hour current_time) (request_tokens tc)).

(** A series of [add_tokens] calls, each with its count and clock reading. *)
Definition add_all (adds : list (Z * Q)) (tc : t) : t :=
  fold_left (fun acc a => add_tokens (fst a) (snd a) acc) adds tc.

End TokenCounter.

Module Config.
Import RateLimiter.

(** [count_tokens_estimate] *)
Definition count_tokens_estimate (text : string) : Z :=
  Z.of_nat (String.length text) / 4.

Section Environment.

(** [os.getenv(name)], and the builtin [int(value)] on a string, [None]
    standing for its [ValueError]. *)
Variable getenv : string -> option string.
Variable py_int : string -> option Z.

(** [_get_int_env] *)
Definition _get_int_env (name : string) (default : Z) : Z :=
  match getenv name with
  | None => default
  | Some value =>
      match py_int value with
      | Some parsed => if 0 <? parsed then parsed else default
      | None => default
      end
  end.

Definition GEMINI_MAX_CALLS : Z := _get_int_env "GEMINI_MAX_CALLS_PER_MINUTE" 60.
Definition GROQ_MAX_CALLS : Z := _get_int_env "GROQ_MAX_CALLS_PER_MINUTE" 60.

End Environment.

(** A series of [rate_limit_check] calls: the provider asked for and the
    two clock readings of each.  The answers, in order, and the globals
    left. *)
Fixpoint checks (cks : list (string * Q * Q)) (g : Globals)
  : list (result (bool * Q)) * Globals :=
  match cks with
  | [] => ([], g)
  | (provider, now1, now2) :: rest =>
      let '(answer, g1) := rate_limit_check provider now1 now2 g in
      let '(answers, g2) := checks rest g1 in
      (answer :: answers, g2)
  end.

End Config.

(* ===================================================================== *)
(** * agent/tools.py: the project directory *)
(* ===================================================================== *)

Module ProjectSetup.
Import Tools.

Definition is_upper (c : ascii) : bool :=
  let n := nat_of_ascii c in (65 <=? n)%nat && (n <=? 90)%nat.

Definition is_lower (c : ascii) : bool :=
  let n := nat_of_ascii c in (97 <=? n)%nat && (n <=? 122)%nat.

(** The class [\w] on ASCII text: letters, digits and the underscore. *)
Definition is_word (c : ascii) : bool :=
  is_upper c || is_lower c || Py.is_digit c || Ascii.eqb c "_"%char.

(** Text of 7-bit characters, on which the classes above are Python's. *)
Fixpoint ascii_only (s : string) : Prop :=
  match s with
  | EmptyString => True
  | String c r => (nat_of_ascii c < 128)%nat /\ ascii_only r
  end.

(** [s.lower()] *)
Fixpoint lower (s : string) : string :=
  match s with
  | EmptyString => EmptyString
  | String c r =>
      String (if is_upper c then ascii_of_nat (nat_of_ascii c + 32) else c) (lower r)
  end.

(** [re.sub(r'[^\w\s-]', '', s)] *)
Fixpoint drop_specials (s : string) : string :=
  match s with
  | EmptyString => EmptyString
  | String c r =>
      if is_word c || Py.is_space c || Ascii.eqb c "-"%char
      then String c (drop_specials r) else drop_specials r
  end.

Definition is_separator (c : ascii) : bool := Py.is_space c || Ascii.eqb c "_"%char.

(** [re.sub(r'[\s_]+', '_', s)]: every maximal run of white space and
    underscores becomes one underscore.  [in_run] tells that the run has
    already been replaced. *)
Fixpoint collapse_from (in_run : bool) (s : string) : string :=
  match s with
  | EmptyString => EmptyString
  | String c r =>
      if is_separator c
      then if in_run then collapse_from true r
           else String "_"%char (collapse_from true r)
      else String c (collapse_from false r)
  end.

Definition collapse (s : string) : string := collapse_from false s.

(** [s.strip('_')] *)
Fixpoint lstrip_underscores (s : string) : string :=
  match s with
  | String c r => if Ascii.eqb c "_"%char then lstrip_underscores r else s
  | EmptyString => EmptyString
  end.

Fixpoint rstrip_underscores (s : string) : string :=
  match s with
  | EmptyString => EmptyString
  | String c r =>
      match rstrip_underscores r with
      | EmptyString => if Ascii.eqb c "_"%char then EmptyString
                       else String c EmptyString
      | r' => String c r'
      end
  end.

Definition strip_underscores (s : string) : string :=
  rstrip_underscores (lstrip_underscores s).

(** The sanitised project name of [set_project_root]. *)
Definition clean_name (project_name : string) : string :=
  let clean_name := drop_specials (lower project_name) in
  let clean_name := strip_underscores (collapse clean_name) in
  let clean_name :=
    if (50 <? String.length clean_name)%nat then Py.take 50 clean_name
    else clean_name in
  if String.eqb clean_name EmptyString then "generated_project" else clean_name.

(** [set_project_root], run in the working directory [cwd]: what it
    returns, the new value of the global [PROJECT_ROOT], and the file
    tree.  The global is set before the directory is made. *)
Definition set_project_root (cwd : RPath) (project_name : string) (fs : FS)
  : result string * RPath * FS :=
  let PROJECT_ROOT := cwd ++ [clean_name project_name] in
  match mkdir_parents fs PROJECT_ROOT with
  | Raise e => (Raise e, PROJECT_ROOT, fs)
  | Ok fs' => (Ok (path_str PROJECT_ROOT), PROJECT_ROOT, fs')
  end.

(** The characters a sanitised name can hold. *)
Definition name_char (c : ascii) : bool :=
  is_lower c || Py.is_digit c || Ascii.eqb c "_"%char || Ascii.eqb c "-"%char.

Fixpoint all_chars (P : ascii -> bool) (s : string) : bool :=
  match s with
  | EmptyString => true
  | String c r => P c && all_chars P r
  end.

End ProjectSetup.

(* ===================================================================== *)
(** * The findings of a scan, as a list comprehension *)
(* ===================================================================== *)

Module Findings.
Import Tools.

Section Findings.
Variable finditer : string -> string -> list (nat * nat).

(** The dict appended for the match [m]. *)
Definition finding (rel category label severity content : string) (m : nat * nat)
  : Issue :=
  {| i_file := rel;
     i_category := category;
     i_line := Z.of_nat (Py.count_nl (Py.take (fst m) content)) + 1;
     i_issue := ("Potential " ++ underscores_to_spaces category ++ label)%string;
     i_severity := severity |}.

(** The matches of [pattern] that do not sit on a comment line. *)
Definition live_matches (content pattern : string) : list (nat * nat) :=
  List.filter (fun m => negb (in_comment content m)) (finditer pattern content).

(** One finding per live match, by category and pattern, in table order. *)
Definition table_findings (rel label severity content : string)
    (table : list (string * list string)) : list Issue :=
  List.flat_map
    (fun entry =>
       List.flat_map
         (fun pattern =>
            List.map (finding rel (fst entry) label severity content)
                     (live_matches content pattern))
         (snd entry))
    table.

End Findings.
End Findings.

(* ===================================================================== *)
(** * Runs of the graph and of the coder's loop, observed *)
(* ===================================================================== *)

Module Runs.
Import States Graph.

(** The place of a stage in the pipeline. *)
Definition stage_rank (n : Node) : nat :=
  match n with
  | planner => 0
  | architect => 1
  | coder => 2
  | security => 3
  | security_fixer => 4
  | final_verification => 5
  | END => 6
  end.

(** [b] may run after [a]: it is a later stage, or both are the coder. *)
Definition may_follow (a b : Node) : bool :=
  (stage_rank a <? stage_rank b)%nat ||
  (bool_decide (a = coder) && bool_decide (b = coder)).

(** Every node of the trace may follow every node before it. *)
Fixpoint in_order (trace : list Node) : bool :=
  match trace with
  | [] => true
  | a :: rest => List.forallb (may_follow a) rest && in_order rest
  end.

(** The sleeps of the coder's self-loop, call after call, up to the first
    call that lets an exception escape. *)
Fixpoint coder_naps (envs : list CoderEnv) (state : State) : list Q :=
  match envs with
  | [] => []
  | env :: rest =>
      slept (coder_agent env state) ++
      match ret (coder_agent env state) with
      | Raise _ => []
      | Ok state' => coder_naps rest state'
      end
  end.

(** The wait of the [n]-th consecutive quota failure. *)
Definition quota_wait (n : Z) : Q := Qmin (5 * 2 ^ (n - 1)) 120.

(** A world in which the target file can be read, the limiter admits the
    call, and the provider refuses the generation for quota without
    naming a delay. *)
Definition fails_for_quota (task : ImplementationTask) (env : CoderEnv) : Prop :=
  returns (read_file env (filepath task)) /\
  fst (rate_limit_check env) = true /\
  exists e, llm_invoke env = Raise e /\
            search_retry_delay (exn_str e) = None /\
            quota_exhausted (exn_str e) = true.

(** A world in which the attempt on the target file fails inside the
    [try]: the read returns and the generation or the write raises. *)
Definition fails_transiently (task : ImplementationTask) (env : CoderEnv) : Prop :=
  returns (read_file env (filepath task)) /\
  raises (snd (coder_try env (filepath task))).

(** A world in which, for every task of the plan, the read of its file
    returns, the generation returns, and the write of the generated text
    returns. *)
Definition succeeds_on (tp : TaskPlan) (env : CoderEnv) : Prop :=
  forall task, In task (implementation_steps tp) ->
    returns (read_file env (filepath task)) /\
    exists content,
      llm_invoke env = Ok content /\
      returns (write_file env (filepath task) (strip_code_fence (Py.strip content))).

End Runs.

(* ===================================================================== *)
(** * Theorems *)
(* ===================================================================== *)

(** ** The rate limiter *)

Module RateLimiterProofs.
Import RateLimiter.

Lemma recent_true n ts : recent n ts = true <-> (n - ts < 60)%Q.
Proof.
  unfold recent. destruct (Qlt_le_dec (n - ts) 60) as [H|H]; split; intros; try easy.
  exfalso. apply (Qle_not_lt _ _ H). assumption.
Qed.









Lemma step_max_calls c rl : max_calls (fst (step c rl)) = max_calls rl.
Proof.
  destruct c as [n|n]; simpl.
  - unfold can_proceed. destruct (_ >=? _); reflexivity.
  - unfold wait_time. destruct (calls rl); [reflexivity|].
    destruct (_ <? _); reflexivity.
Qed.

(** What [can_proceed] returns and leaves behind. *)
Lemma can_proceed_spec n rl :
  let kept := prune n (calls rl) in
  (fst (can_proceed n rl) = true <-> Z.of_nat (length kept) < max_calls rl) /\
  (fst (can_proceed n rl) = true -> calls (snd (can_proceed n rl)) = kept ++ [n]) /\
  (fst (can_proceed n rl) = false -> calls (snd (can_proceed n rl)) = kept) /\
  max_calls (snd (can_proceed n rl)) = max_calls rl.
Proof.
  unfold can_proceed. simpl.
  destruct (Z.of_nat (length (prune n (calls rl))) >=? max_calls rl) eqn:E; simpl.
  - apply Z.geb_le in E. repeat split; try easy. lia.
  - rewrite Z.geb_leb in E. apply Z.leb_gt in E. repeat split; try easy.
Qed.

(** [wait_time] only prunes. *)
Lemma wait_time_calls n rl : calls (snd (wait_time n rl)) = prune n (calls rl).
Proof.
  unfold wait_time. destruct (calls rl) eqn:E.
  - simpl. rewrite E. reflexivity.
  - destruct (_ <? _); reflexivity.
Qed.





(** [rate_limit_check], when limiting is on, is [can_proceed] on the
    provider's limiter, followed by [wait_time] when the call is refused. *)
Lemma rate_limit_check_gemini now1 now2 g :
  RATE_LIMIT_DISABLED g = false ->
  gemini_limiter (snd (rate_limit_check "gemini" now1 now2 g)) =
    (if fst (can_proceed now1 (gemini_limiter g))
     then run [CanProceed now1] (gemini_limiter g)
     else run [CanProceed now1; WaitTime now2] (gemini_limiter g)) /\
  (forall w, fst (rate_limit_check "gemini" now1 now2 g) = Ok w ->
             fst w = fst (can_proceed now1 (gemini_limiter g))).
Proof.
  intros Hd. unfold rate_limit_check. rewrite Hd. simpl.
  destruct (can_proceed now1 (gemini_limiter g)) as [ok l1]; simpl.
  destruct ok; simpl; [split; [reflexivity|intros w [= <-]; reflexivity]|].
  destruct (wait_time now2 l1) as [w l2] eqn:Ew. simpl.
  split; [change l2 with (snd (w, l2)); rewrite <- Ew; reflexivity|].
  intros w'. destruct w; simpl; [intros [= <-]; reflexivity|discriminate].
Qed.

(** With limiting disabled nothing is checked and nothing is recorded. *)
Lemma rate_limit_check_disabled p now1 now2 g :
  RATE_LIMIT_DISABLED g = true ->
  rate_limit_check p now1 now2 g = (Ok (true, 0%Q), g).
Proof. intros Hd. unfold rate_limit_check. rewrite Hd. reflexivity. Qed.

(** [wait_time] never meets the empty [min]: a limiter built by [init]
    and used through its methods always answers. *)
Lemma tidy_init n : tidy (init n).
Proof. intros _. reflexivity. Qed.

Lemma tidy_step c rl : tidy rl -> tidy (fst (step c rl)).
Proof.
  unfold tidy. intros H. rewrite step_max_calls. intros Hm.
  destruct c as [n|n]; simpl.
  - unfold can_proceed. rewrite (H Hm). cbn [prune List.filter length].
    destruct (_ >=? _) eqn:G; [reflexivity|].
    rewrite Z.geb_leb in G. apply Z.leb_gt in G. simpl in G. lia.
  - rewrite wait_time_calls, (H Hm). reflexivity.
Qed.

Lemma wait_time_returns n rl : tidy rl -> returns (fst (wait_time n rl)).
Proof.
  unfold tidy, wait_time. intros H.
  destruct (calls rl) as [|c cs] eqn:E; [eexists; reflexivity|].
  remember (prune n (c :: cs)) as kept eqn:P.
  destruct (_ <? _) eqn:L; [eexists; reflexivity|]. cbn [fst].
  apply Z.ltb_ge in L.
  destruct kept as [|k ks]; [|eexists; reflexivity].
  simpl in L. assert (Hm : max_calls rl <= 0) by lia.
  specialize (H Hm). discriminate.
Qed.

Lemma rate_limit_check_returns p now1 now2 g :
  tidy (gemini_limiter g) -> tidy (groq_limiter g) ->
  returns (fst (rate_limit_check p now1 now2 g)).
Proof.
  intros Hg Hq. unfold rate_limit_check.
  destruct (RATE_LIMIT_DISABLED g); [eexists; reflexivity|].
  set (l := if String.eqb p "gemini" then gemini_limiter g else groq_limiter g).
  assert (Hl : tidy l) by (unfold l; destruct (String.eqb p "gemini"); assumption).
  pose proof (tidy_step (CanProceed now1) l Hl) as H1. simpl in H1.
  destruct (can_proceed now1 l) as [ok l1]. simpl in H1.
  destruct ok; simpl; [eexists; reflexivity|].
  pose proof (wait_time_returns now2 l1 H1) as [w Hw].
  destruct (wait_time now2 l1) as [r l2]. simpl in *. subst r. eexists. reflexivity.
Qed.



Example admissions_two_per_minute :
  admissions [CanProceed 0; CanProceed 1; CanProceed 2; WaitTime 3;
            CanProceed 61; CanProceed 62]%Q (init 2) = [0; 1; 61; 62]%Q.
Proof. vm_compute. reflexivity. Qed.

End RateLimiterProofs.

(** ** The back-off of the coder *)

Module BackoffProofs.
Import States Graph.

Lemma Qpower_two_nonneg (k : Z) :
  0 <= k -> (2 ^ k == inject_Z (2 ^ k))%Q.
Proof. intros Hk. symmetry. apply (Zpower_Qpower 2 k Hk). Qed.

(** For a retry count of at least one the quota formula is the integer
    [min(5 * 2^(n-1), 120)]. *)
Lemma quota_wait_integer (n : Z) :
  1 <= n ->
  (Qmin (5 * 2 ^ (n - 1)) 120 == inject_Z (Z.min (5 * 2 ^ (n - 1)) 120))%Q.
Proof.
  intros Hn. rewrite Qpower_two_nonneg by lia.
  assert (E : (5 * inject_Z (2 ^ (n - 1)) == inject_Z (5 * 2 ^ (n - 1)))%Q).
  { rewrite inject_Z_mult. reflexivity. }
  rewrite E. change 120%Q with (inject_Z 120).
  destruct (Z.min_spec (5 * 2 ^ (n - 1)) 120) as [[Hlt ->]|[Hle ->]].
  - apply Q.min_l. rewrite <- Zle_Qle. lia.
  - apply Q.min_r. rewrite <- Zle_Qle. lia.
Qed.

Lemma quota_wait_capped (n : Z) :
  6 <= n -> (Qmin (5 * 2 ^ (n - 1)) 120 == 120)%Q.
Proof.
  intros Hn. rewrite quota_wait_integer by lia.
  assert (2 ^ 5 <= 2 ^ (n - 1)) by (apply Z.pow_le_mono_r; lia).
  change (2 ^ 5) with 32 in H.
  rewrite Z.min_r by lia. reflexivity.
Qed.

(** C4. The wait before a retry.  When the failure text carries a retry
    delay, the wait is that delay plus 2 seconds.  Otherwise, for a quota
    failure (the text holds 429 or ResourceExhausted) it is
    min(5 * 2^(n-1), 120) for the retry count n: 5, 10, 20, 40 seconds for
    n = 1, 2, 3, 4, and 120 for every n >= 6.  Otherwise it is 5 seconds. *)
Theorem wait_seconds_schedule (err : string) (n : Z) :
  (forall seconds, search_retry_delay err = Some seconds ->
     wait_seconds err n = inject_Z (seconds + 2)) /\
  (search_retry_delay err = None -> quota_exhausted err = true ->
     wait_seconds err n = Qmin (5 * 2 ^ (n - 1)) 120 /\
     (1 <= n -> (wait_seconds err n == inject_Z (Z.min (5 * 2 ^ (n - 1)) 120))%Q) /\
     (n = 1 -> wait_seconds err n = 5%Q) /\
     (n = 2 -> wait_seconds err n = 10%Q) /\
     (n = 3 -> wait_seconds err n = 20%Q) /\
     (n = 4 -> wait_seconds err n = 40%Q) /\
     (6 <= n -> (wait_seconds err n == 120)%Q)) /\
  (search_retry_delay err = None -> quota_exhausted err = false ->
     wait_seconds err n = 5%Q).
Proof.
  unfold wait_seconds. split; [|split].
  - intros seconds ->. reflexivity.
  - intros -> ->. split; [reflexivity|].
    split; [apply quota_wait_integer|].
    repeat split; try (intros ->; reflexivity).
    apply quota_wait_capped.
  - intros -> ->. reflexivity.
Qed.

(** The schedule on three failure texts: a provider delay of 17 seconds,
    a quota failure at the third retry, and a plain failure. *)
Lemma wait_seconds_schedule_witness :
  wait_seconds "429 Quota exceeded. retry_delay { seconds: 17 }" 3 = 19%Q /\
  wait_seconds "429 ResourceExhausted" 3 = 20%Q /\
  (wait_seconds "429 ResourceExhausted" 9 == 120)%Q /\
  wait_seconds "connection reset" 3 = 5%Q.
Proof.
  split; [|split; [|split]].
  - apply (proj1 (wait_seconds_schedule
                    "429 Quota exceeded. retry_delay { seconds: 17 }" 3) 17).
    vm_compute. reflexivity.
  - apply (proj1 (proj2 (wait_seconds_schedule "429 ResourceExhausted" 3)));
      vm_compute; reflexivity.
  - apply (proj1 (proj2 (wait_seconds_schedule "429 ResourceExhausted" 9)));
      vm_compute; solve [reflexivity | discriminate].
  - apply (proj2 (proj2 (wait_seconds_schedule "connection reset" 3)));
      vm_compute; reflexivity.
Defined.

(** The fifth retry still waits 80 seconds; the cap bites from the sixth. *)
Example wait_seconds_fifth : wait_seconds "429" 5 = 80%Q.
Proof. vm_compute. reflexivity. Qed.

End BackoffProofs.

(** ** The project-root sandbox *)

Module SandboxProofs.
Import Tools Examples.

Lemma in_proper_prefixes (p r : RPath) :
  In r (proper_prefixes p) <-> exists c rest, p = r ++ c :: rest.
Proof.
  revert r. induction p as [|c p IH]; intros r; simpl.
  - split; [tauto|]. intros (c & rest & H). destruct r; discriminate.
  - split.
    + intros [<-|H]; [exists c, p; reflexivity|].
      apply in_map_iff in H as (r' & <- & H). apply IH in H as (c' & rest & ->).
      exists c', rest. reflexivity.
    + intros (c' & rest & H). destruct r as [|a r']; [left; reflexivity|right].
      simpl in H. injection H as -> ->. apply in_map.
      apply IH. exists c', rest. reflexivity.
Qed.

Lemma rpath_in_true (r : RPath) (l : list RPath) : rpath_in r l = true <-> In r l.
Proof.
  unfold rpath_in. rewrite existsb_exists. split.
  - intros (x & Hx & E). apply bool_decide_eq_true in E. subst. exact Hx.
  - intros H. exists r. split; [exact H|]. apply bool_decide_eq_true. reflexivity.
Qed.

Lemma rpath_eqb_true (p q : RPath) : rpath_eqb p q = true <-> p = q.
Proof. apply bool_decide_eq_true. Qed.

Lemma inside_cases (r p : RPath) : inside r p <-> p = r \/ In r (proper_prefixes p).
Proof.
  rewrite in_proper_prefixes. split.
  - intros [[|c rest] ->]; [left; apply app_nil_r|right; eauto].
  - intros [->|(c & rest & ->)]; [exists []; symmetry; apply app_nil_r|eexists; reflexivity].
Qed.

Lemma parent_inside (p : RPath) : inside (parent p) p.
Proof.
  unfold parent. destruct p as [|c p] using rev_ind; [exists []; reflexivity|].
  rewrite removelast_last. eexists. reflexivity.
Qed.

Lemma inside_or_not (r p : RPath) : inside r p \/ ~ inside r p.
Proof.
  rewrite inside_cases.
  destruct (decide (p = r)) as [E|E]; [tauto|].
  destruct (in_dec (fun a b : RPath => decide (a = b)) r (proper_prefixes p)); tauto.
Qed.

Section Sandbox.
Variable root : RPath.
Variable resolve : string -> RPath.

(** The check passes exactly for the root and what lies below it. *)
Lemma safe_path_inside (path : string) :
  inside root (resolve path) -> safe_path_for_project root resolve path = Ok (resolve path).
Proof.
  intros H. unfold safe_path_for_project.
  apply inside_cases in H as [H|H].
  - rewrite <- H. replace (rpath_eqb (resolve path) (resolve path)) with true
      by (symmetry; apply rpath_eqb_true; reflexivity).
    rewrite !andb_false_r. reflexivity.
  - replace (rpath_in root (parents (resolve path))) with true; [reflexivity|].
    symmetry. apply rpath_in_true. unfold parents. apply in_rev in H. exact H.
Qed.

Lemma safe_path_outside (path : string) :
  ~ inside root (resolve path) -> safe_path_for_project root resolve path = Raise escape.
Proof.
  intros H. unfold safe_path_for_project.
  destruct (rpath_in root (parents (resolve path))) eqn:E1.
  { exfalso. apply H, inside_cases. right. apply rpath_in_true in E1.
    unfold parents in E1. apply in_rev in E1. exact E1. }
  destruct (rpath_eqb root (parent (resolve path))) eqn:E2.
  { exfalso. apply H. apply rpath_eqb_true in E2. rewrite E2. apply parent_inside. }
  destruct (rpath_eqb root (resolve path)) eqn:E3.
  { exfalso. apply H. apply rpath_eqb_true in E3. rewrite <- E3. exists []. 
    symmetry. apply app_nil_r. }
  reflexivity.
Qed.

(** Creating directories only ever adds directories. *)
Lemma mkdir_chain_lookup ds : forall fs fs' q,
  mkdir_chain fs ds = Ok fs' ->
  fs' !! q = fs !! q \/ (fs' !! q = Some Dir /\ In q ds).
Proof.
  induction ds as [|d ds IH]; simpl; intros fs fs' q H.
  - injection H as <-. left. reflexivity.
  - destruct (mkdir1 fs d) as [fs1|e] eqn:E1; [|discriminate].
    destruct (IH _ _ q H) as [Hq|[Hq Hin]]; [|right; tauto].
    rewrite Hq. unfold mkdir1 in E1.
    destruct d as [|c d']; [injection E1 as <-; left; reflexivity|].
    destruct (fs !! (c :: d')) as [[| |]|] eqn:Ed; try discriminate;
      injection E1 as E1; subst fs1; [left; reflexivity|].
    destruct (decide (c :: d' = q)) as [<-|Hne].
    + right. rewrite lookup_insert_eq. split; [reflexivity|left; reflexivity].
    + left. apply lookup_insert_ne. exact Hne.
Qed.

Lemma mkdir1_is_dir fs d fs' : mkdir1 fs d = Ok fs' -> is_dir fs' d = true.
Proof.
  unfold mkdir1, is_dir. destruct d as [|c d']; [reflexivity|].
  destruct (fs !! (c :: d')) as [[| |]|] eqn:E; intros H; try discriminate;
    injection H as <-.
  - rewrite E. reflexivity.
  - rewrite lookup_insert_eq. reflexivity.
Qed.

Lemma mkdir_chain_last ds : forall fs d fs',
  mkdir_chain fs (ds ++ [d]) = Ok fs' -> is_dir fs' d = true.
Proof.
  induction ds as [|d0 ds IH]; simpl; intros fs d fs' H.
  - destruct (mkdir1 fs d) as [fs1|e] eqn:E; [|discriminate].
    injection H as <-. eapply mkdir1_is_dir, E.
  - destruct (mkdir1 fs d0) as [fs1|e]; [|discriminate]. eapply IH, H.
Qed.

Lemma proper_prefix_shorter (p r : RPath) :
  In r (proper_prefixes p) -> (length r < length p)%nat.
Proof.
  intros H. apply in_proper_prefixes in H as (c & rest & ->).
  rewrite length_app. simpl. lia.
Qed.

Lemma parent_shorter (p : RPath) : p <> [] -> (length (parent p) < length p)%nat.
Proof.
  intros H. unfold parent. destruct p as [|c p] using rev_ind; [congruence|].
  rewrite removelast_last, length_app. simpl. lia.
Qed.

(** [mkdir] of the parent leaves the target itself alone. *)
Lemma mkdir_parents_target fs p fs1 :
  p <> [] -> mkdir_parents fs (parent p) = Ok fs1 -> fs1 !! p = fs !! p.
Proof.
  intros Hp H. unfold mkdir_parents in H.
  destruct (mkdir_chain_lookup _ _ _ p H) as [E|[_ Hin]]; [exact E|].
  exfalso. apply in_app_or in Hin as [Hin|[Hin|[]]].
  - apply proper_prefix_shorter in Hin. pose proof (parent_shorter p Hp). lia.
  - pose proof (parent_shorter p Hp). rewrite Hin in H0. lia.
Qed.

Lemma open_write_lookup fs p content fs' q :
  open_write fs p content = Ok fs' ->
  fs' !! q = fs !! q \/ (q = p /\ fs' !! q = Some (Regular content)).
Proof.
  unfold open_write. destruct p as [|c p']; [discriminate|].
  destruct (fs !! (c :: p')) as [[| |]|]; try discriminate;
    destruct (is_dir fs (parent (c :: p'))); try discriminate;
    intros H; injection H as <-;
    (destruct (decide (c :: p' = q)) as [<-|Hne];
     [right; rewrite lookup_insert_eq; tauto|left; apply lookup_insert_ne, Hne]).
Qed.

(** C9. The sandbox of [read_file] and [write_file].  If the resolved
    location of the path is neither the project root nor below it, both
    raise before any file access: the result does not depend on the file
    tree and the tree is left as it was.  If it resolves inside the root,
    the check lets them through to the plain file operations on that
    location: [read_file] returns the empty string for a missing file and
    the file's text otherwise, [write_file] creates the parent directories
    and writes the file.  Either way, whatever regular file [write_file]
    leaves that was not there before is the target itself, inside the
    root, holding the content given. *)
Theorem file_tools_confined_to_root (path content : string) (fs : FS) :
  let p := resolve path in
  (~ inside root p ->
     read_file root resolve path fs = Raise escape /\
     write_file root resolve path content fs = (Raise escape, fs)) /\
  (inside root p ->
     read_file root resolve path fs =
       (if exists_ fs p then open_read fs p else Ok EmptyString) /\
     write_file root resolve path content fs =
       match mkdir_parents fs (parent p) with
       | Raise e => (Raise e, fs)
       | Ok fs1 =>
           match open_write fs1 p content with
           | Raise e => (Raise e, fs1)
           | Ok fs2 => (Ok ("WROTE:" ++ path_str p)%string, fs2)
           end
       end /\
     (forall fs1, p <> [] -> mkdir_parents fs (parent p) = Ok fs1 ->
        fs !! p <> Some Dir ->
        write_file root resolve path content fs =
          (Ok ("WROTE:" ++ path_str p)%string, <[p := Regular content]> fs1))) /\
  (forall q text,
     snd (write_file root resolve path content fs) !! q = Some (Regular text) ->
     fs !! q = Some (Regular text) \/ (q = p /\ inside root p /\ text = content)).
Proof.
  intros p. split; [|split].
  - intros Hout. unfold read_file, write_file.
    rewrite (safe_path_outside path Hout). split; reflexivity.
  - intros Hin. unfold read_file, write_file.
    rewrite (safe_path_inside path Hin). simpl. fold p.
    split; [destruct (exists_ fs p); reflexivity|]. split; [reflexivity|].
    intros fs1 Hp Hmk Hnd. rewrite Hmk.
    assert (Hd : is_dir fs1 (parent p) = true).
    { unfold mkdir_parents in Hmk. eapply mkdir_chain_last, Hmk. }
    assert (Hp1 : fs1 !! p <> Some Dir).
    { rewrite (mkdir_parents_target fs p fs1 Hp Hmk). exact Hnd. }
    unfold open_write. destruct p as [|c p'] eqn:Ep; [congruence|].
    rewrite Hd. destruct (fs1 !! (c :: p')) as [[| |]|]; try reflexivity. congruence.
  - intros q text. unfold write_file.
    destruct (inside_or_not root p) as [Hin|Hout].
    2:{ rewrite (safe_path_outside path Hout). simpl. tauto. }
    rewrite (safe_path_inside path Hin). fold p.
    destruct (mkdir_parents fs (parent p)) as [fs1|e] eqn:Hmk; simpl; [|tauto].
    assert (H1 : forall t, fs1 !! q = Some (Regular t) -> fs !! q = Some (Regular t)).
    { intros t Ht. unfold mkdir_parents in Hmk.
      destruct (mkdir_chain_lookup _ _ _ q Hmk) as [E|[E _]]; congruence. }
    destruct (open_write fs1 p content) as [fs2|e] eqn:Hw; simpl.
    + intros Hq. destruct (open_write_lookup _ _ _ _ q Hw) as [E|[-> E]].
      * left. apply H1. congruence.
      * right. rewrite E in Hq. injection Hq as <-. tauto.
    + intros Hq. left. apply H1, Hq.
Qed.

End Sandbox.
(** The theorem on that project: a path that climbs out of the root is
    refused by both tools with the tree untouched, and a path inside it is
    written. *)
Lemma file_tools_confined_to_root_witness :
  (read_file demo_root (lexical_resolve demo_root) "../secret.txt" demo_fs
     = Raise (escape) /\
   write_file demo_root (lexical_resolve demo_root) "../secret.txt" "x" demo_fs
     = (Raise (escape), demo_fs)) /\
  fst (write_file demo_root (lexical_resolve demo_root) "src/app.py" "print(1)" demo_fs)
    = Ok "WROTE:/home/proj/src/app.py" /\
  read_file demo_root (lexical_resolve demo_root) "notes.txt" demo_fs = Ok "todo".
Proof.
  split; [|split].
  - apply (proj1 (file_tools_confined_to_root demo_root (lexical_resolve demo_root)
                    "../secret.txt" "x" demo_fs)).
    intros [rest H]. vm_compute in H. discriminate.
  - destruct (file_tools_confined_to_root demo_root (lexical_resolve demo_root)
                "src/app.py" "print(1)" demo_fs) as (_ & Hin & _).
    destruct Hin as (_ & _ & Hw); [exists ["src"; "app.py"]; reflexivity|].
    destruct (mkdir_parents demo_fs
                (parent (lexical_resolve demo_root "src/app.py"))) as [fs1|e] eqn:E;
      [|vm_compute in E; discriminate].
    rewrite (Hw fs1);
      [reflexivity|vm_compute; discriminate|reflexivity|vm_compute; discriminate].
  - destruct (file_tools_confined_to_root demo_root (lexical_resolve demo_root)
                "notes.txt" "x" demo_fs) as (_ & Hin & _).
    destruct Hin as (Hr & _); [exists ["notes.txt"]; reflexivity|].
    rewrite Hr. vm_compute. reflexivity.
Defined.

End SandboxProofs.

(** ** The security scanner *)

Module ScannerProofs.
Import Tools Examples.

Section Scanner.
Variable finditer : string -> string -> list (nat * nat).
Variable root : RPath.



(** The result is consistent: [passed] exactly when there are no issues,
    and [total_issues] counts them. *)
Lemma scan_result_consistent (fs : FS) :
  let r := scan_project_security finditer root fs in
  (scan_passed r = true <-> scan_issues r = []) /\
  scan_total_issues r = Z.of_nat (length (scan_issues r)).
Proof.
  unfold scan_project_security. destruct (negb (exists_ fs root)); simpl.
  - split; [tauto|reflexivity].
  - split; [|reflexivity]. rewrite Nat.eqb_eq. apply length_zero_iff_nil.
Qed.


End Scanner.


Example scan_open_fails :
  scan_passed (scan_project_security demo_finditer demo_root open_fs) = false.
Proof. vm_compute. reflexivity. Qed.


End ScannerProofs.

(** ** The coder *)

Module CoderProofs.
Import States Graph Examples.

Lemma py_index_in_range {A} (l : list A) (i : Z) :
  0 <= i < Z.of_nat (length l) -> exists a, py_index l i = Ok a.
Proof.
  intros H. unfold py_index.
  replace (i <? 0) with false by (symmetry; apply Z.ltb_ge; lia).
  replace (i <? 0) with false by (symmetry; apply Z.ltb_ge; lia). simpl.
  replace (Z.of_nat (length l) <=? i) with false by (symmetry; apply Z.leb_gt; lia).
  destruct (nth_error l (Z.to_nat i)) as [a|] eqn:E; [eauto|].
  apply nth_error_None in E. lia.
Qed.

Lemma initial_of_returned (state : State) (cs : CoderState) :
  get "coder_state" state = VCoderState cs -> initial_coder_state state = Ok cs.
Proof. intros H. unfold initial_coder_state. rewrite H. reflexivity. Qed.

(** The call below the task count, case by case. *)
Lemma coder_agent_below (env : CoderEnv) (state : State) (cs : CoderState) :
  initial_coder_state state = Ok cs ->
  0 <= current_step_idx cs < task_count cs ->
  exists task,
    py_index (implementation_steps (task_plan cs)) (current_step_idx cs) = Ok task /\
    coder_agent env state =
      match read_file env (filepath task) with
      | Raise e => {| ret := Raise e; slept := [] |}
      | Ok _ =>
          match coder_try env (filepath task) with
          | (naps, Ok _) =>
              {| ret := Ok (coder_return (advanced cs)
                              (if current_step_idx cs + 1 >=? task_count cs
                               then "CODING_DONE" else "CODING_IN_PROGRESS") state);
                 slept := naps |}
          | (naps, Raise e) =>
              {| ret := Ok (coder_return (retried cs) "CODING_RETRY" state);
                 slept := naps ++ [wait_seconds (exn_str e) (retry_attempts cs + 1)] |}
          end
      end.
Proof.
  intros Hi Hr. unfold task_count in Hr.
  destruct (py_index_in_range _ _ Hr) as [task Ht]. exists task. split; [exact Ht|].
  unfold coder_agent. rewrite Hi.
  replace (length (implementation_steps (task_plan cs)) =? 0)%nat with false
    by (symmetry; apply Nat.eqb_neq; lia).
  replace (current_step_idx cs >=? Z.of_nat (length (implementation_steps (task_plan cs))))
    with false by (symmetry; rewrite Z.geb_leb; apply Z.leb_gt; lia).
  rewrite Ht. reflexivity.
Qed.



(** What each case of a call below the task count amounts to. *)
Lemma coder_agent_cases (env : CoderEnv) (state : State) (cs : CoderState) :
  initial_coder_state state = Ok cs ->
  0 <= current_step_idx cs < task_count cs ->
  exists task,
    py_index (implementation_steps (task_plan cs)) (current_step_idx cs) = Ok task /\
    match read_file env (filepath task) with
    | Raise e =>
        ret (coder_agent env state) = Raise e /\ slept (coder_agent env state) = []
    | Ok _ =>
        match snd (coder_try env (filepath task)) with
        | Ok _ => success cs (coder_agent env state)
        | Raise e =>
            transient_failure cs (coder_agent env state) /\
            slept (coder_agent env state) =
              fst (coder_try env (filepath task)) ++
              [wait_seconds (exn_str e) (retry_attempts cs + 1)]
        end
    end.
Proof.
  intros Hi Hr. destruct (coder_agent_below env state cs Hi Hr) as (task & Ht & E).
  exists task. split; [exact Ht|]. rewrite E. clear E.
  destruct (read_file env (filepath task)) as [existing|e]; [|split; reflexivity].
  destruct (coder_try env (filepath task)) as [naps [[]|e]]; simpl.
  - eexists _, (advanced cs). split; [reflexivity|].
    split; [reflexivity|]. split; [reflexivity|]. split; [reflexivity|].
    split; [reflexivity|]. simpl.
    destruct (current_step_idx cs + 1 >=? task_count cs) eqn:G.
    + left. split; [reflexivity|]. apply Z.geb_le in G. lia.
    + right. split; [reflexivity|]. rewrite Z.geb_leb in G. apply Z.leb_gt in G. lia.
  - split; [|reflexivity].
    eexists _, (retried cs). repeat split; reflexivity.
Qed.







(** ** The cursor *)

Ltac close_carried :=
  solve [ reflexivity | lia | intros; reflexivity | intros; lia
        | let H := fresh in intros H; vm_compute in H; discriminate ].

Lemma carried_trans cs1 s2 cs2 s3 cs3 :
  carried cs1 s2 cs2 -> carried cs2 s3 cs3 -> carried cs1 s3 cs3.
Proof.
  unfold carried, task_count. intros (G1 & T1 & I1 & _) (G2 & T2 & I2 & D2 & R2 & C2).
  rewrite T1 in *. repeat split; try tauto; try congruence; lia.
Qed.

Lemma coder_step (env : CoderEnv) (state : State) (cs : CoderState) (state' : State) :
  initial_coder_state state = Ok cs ->
  0 <= current_step_idx cs <= task_count cs ->
  ret (coder_agent env state) = Ok state' ->
  exists cs', carried cs state' cs'.
Proof.
  intros Hi Hr Hret.
  destruct (Z.eq_dec (current_step_idx cs) (task_count cs)) as [E|NE].
  - unfold coder_agent in Hret. rewrite Hi in Hret. unfold task_count in E.
    destruct (length (implementation_steps (task_plan cs)) =? 0)%nat; [discriminate|].
    replace (current_step_idx cs >=?
             Z.of_nat (length (implementation_steps (task_plan cs))))
      with true in Hret by (symmetry; apply Z.geb_le; lia).
    simpl in Hret. destruct (requirements env); [|discriminate].
    injection Hret as <-. exists cs. unfold carried, task_count.
    repeat split; close_carried.
  - assert (Hlt : 0 <= current_step_idx cs < task_count cs) by lia.
    destruct (coder_agent_below env state cs Hi Hlt) as (task & _ & Eq).
    rewrite Eq in Hret. clear Eq.
    destruct (read_file env (filepath task)); [|discriminate].
    destruct (coder_try env (filepath task)) as [naps [[]|e]]; simpl in Hret;
      injection Hret as <-.
    + exists (advanced cs). unfold carried. simpl.
      destruct (current_step_idx cs + 1 >=? task_count cs) eqn:G.
      * apply Z.geb_le in G. repeat split; close_carried.
      * rewrite Z.geb_leb in G. apply Z.leb_gt in G. repeat split; close_carried.
    + exists (retried cs). unfold carried. simpl. repeat split; close_carried.
Qed.

Lemma coder_invocations_carried (envs : list CoderEnv) :
  forall state cs state',
    initial_coder_state state = Ok cs ->
    0 <= current_step_idx cs <= task_count cs ->
    coder_invocations envs state = Ok state' ->
    (envs = [] /\ state' = state) \/ exists cs', carried cs state' cs'.
Proof.
  induction envs as [|env envs IH]; simpl; intros state cs state' Hi Hr H.
  - left. split; [reflexivity|congruence].
  - right. destruct (ret (coder_agent env state)) as [s1|e] eqn:E1; [|discriminate].
    destruct (coder_step env state cs s1 Hi Hr E1) as [cs1 C1].
    assert (Hi1 : initial_coder_state s1 = Ok cs1)
      by (apply initial_of_returned, C1).
    assert (Hr1 : 0 <= current_step_idx cs1 <= task_count cs1).
    { destruct C1 as (_ & T & I & _). unfold task_count in *. rewrite T. lia. }
    destruct (IH s1 cs1 state' Hi1 Hr1 H) as [[_ ->]|[cs' C']].
    + exists cs1. exact C1.
    + exists cs'. eapply carried_trans; eassumption.
Qed.

(** C5. The cursor invariant.  Start from a state without a coder state,
    holding the task plan [tp], and call the coder any number of times,
    at least once ([envs1]), and then any number of times more ([envs2]).
    Whenever these calls return, the cursor after the first run and the
    cursor after the second satisfy 0 <= first <= second <= number of
    tasks of [tp]: the cursor stays within bounds and never decreases.
    The coder reports the done marker exactly when the cursor equals the
    task count, and the router leaves the self-loop for the security stage
    exactly then; below the count it routes back to the coder. *)
Theorem cursor_invariant (tp : TaskPlan) (state0 : State)
    (envs1 envs2 : list CoderEnv) (state1 state2 : State) :
  get "coder_state" state0 = VNone ->
  get "task_plan" state0 = VTaskPlan tp ->
  envs1 <> [] ->
  coder_invocations envs1 state0 = Ok state1 ->
  coder_invocations envs2 state1 = Ok state2 ->
  exists cs1 cs2,
    get "coder_state" state1 = VCoderState cs1 /\
    get "coder_state" state2 = VCoderState cs2 /\
    task_plan cs1 = tp /\ task_plan cs2 = tp /\
    0 <= current_step_idx cs1 <= current_step_idx cs2 /\
    current_step_idx cs2 <= Z.of_nat (length (implementation_steps tp)) /\
    (get "status" state2 = VStr "CODING_DONE" <->
       current_step_idx cs2 = Z.of_nat (length (implementation_steps tp))) /\
    (route_from_coder state2 = security <->
       current_step_idx cs2 = Z.of_nat (length (implementation_steps tp))) /\
    (current_step_idx cs2 < Z.of_nat (length (implementation_steps tp)) ->
       route_from_coder state2 = coder).
Proof.
  intros Hc Ht Hne H1 H2.
  set (cs0 := {| task_plan := tp; current_step_idx := 0;
                 current_file_content := None; retry_attempts := 0 |}).
  assert (Hi0 : initial_coder_state state0 = Ok cs0).
  { unfold initial_coder_state. rewrite Hc, Ht. reflexivity. }
  assert (Hr0 : 0 <= current_step_idx cs0 <= task_count cs0)
    by (unfold task_count; simpl; lia).
  destruct (coder_invocations_carried envs1 state0 cs0 state1 Hi0 Hr0 H1)
    as [[E _]|[cs1 C1]]; [contradiction|].
  assert (Hi1 : initial_coder_state state1 = Ok cs1)
    by (apply initial_of_returned, C1).
  assert (Hr1 : 0 <= current_step_idx cs1 <= task_count cs1).
  { destruct C1 as (_ & T & I & _). unfold task_count in *. rewrite T.
    unfold cs0 in I. simpl in I. unfold cs0. simpl. lia. }
  assert (C2 : exists cs2, carried cs0 state2 cs2 /\
                           current_step_idx cs1 <= current_step_idx cs2).
  { destruct (coder_invocations_carried envs2 state1 cs1 state2 Hi1 Hr1 H2)
      as [[_ ->]|[cs2 C2]].
    - exists cs1. split; [exact C1|lia].
    - exists cs2. split; [eapply carried_trans; eassumption|].
      destruct C2 as (_ & _ & I & _). lia. }
  destruct C2 as (cs2 & C2 & Hmono).
  destruct C1 as (G1 & T1 & I1 & _). destruct C2 as (G2 & T2 & I2 & D2 & R2 & L2).
  unfold task_count, cs0 in *. simpl in *.
  exists cs1, cs2. repeat split; try assumption; try lia; try tauto.
Qed.

(** The invariant on the two-file project: the first file is written,
    then the provider refuses for quota, then the second file is written. *)
Lemma cursor_invariant_witness :
  exists cs1 cs2,
    get "coder_state" after_first_file = VCoderState cs1 /\
    get "coder_state" after_both_files = VCoderState cs2 /\
    task_plan cs1 = two_tasks /\ task_plan cs2 = two_tasks /\
    0 <= current_step_idx cs1 <= current_step_idx cs2 /\
    current_step_idx cs2 <= Z.of_nat (length (implementation_steps two_tasks)) /\
    (get "status" after_both_files = VStr "CODING_DONE" <->
       current_step_idx cs2 = Z.of_nat (length (implementation_steps two_tasks))) /\
    (route_from_coder after_both_files = security <->
       current_step_idx cs2 = Z.of_nat (length (implementation_steps two_tasks))) /\
    (current_step_idx cs2 < Z.of_nat (length (implementation_steps two_tasks)) ->
       route_from_coder after_both_files = coder).
Proof.
  apply (cursor_invariant two_tasks two_tasks_input
           [coder_world demo_fs] [quota_world demo_fs; coder_world demo_fs]).
  - reflexivity.
  - reflexivity.
  - discriminate.
  - vm_compute. reflexivity.
  - vm_compute. reflexivity.
Defined.

End CoderProofs.

(** ** The planner and the architect *)

Module PlanningProofs.
Import States Graph Examples.


(** One step of a run, at a node other than [END]. *)
Lemma invoke_from_S (limit : nat) (envs : nat -> Env) (k : nat) (n : Node) (state : State) :
  n <> END ->
  invoke_from (S limit) envs k n state =
    match run_node n (envs k) state with
    | Raise e => ([n], Raise e)
    | Ok state' =>
        let '(trace, r) := invoke_from limit envs (S k) (next_node n state') state' in
        (n :: trace, r)
    end.
Proof.
  intros H. simpl. destruct (decide (n = END)); [contradiction|reflexivity].
Qed.




(** The architect on a plan, case by case on what its model answers. *)
Lemma architect_agent_on_plan (env : ArchitectEnv) (state : State) (p : Plan) :
  get "plan" state = VPlan p ->
  architect_agent env state =
    match task_plan_response env with
    | Raise e => Raise e
    | Ok None => Raise (AttributeError
        "'NoneType' object has no attribute 'implementation_steps'")
    | Ok (Some tp) => Ok (<["task_plan" := VTaskPlan tp]> (<["plan" := VPlan p]> ∅))
    end.
Proof.
  intros H. unfold architect_agent. rewrite H. simpl.
  destruct (task_plan_response env) as [[tp|]|e]; reflexivity.
Qed.

(** C6, as amended.  For a state that holds a plan, the architect returns
    the task plan its model produced, unchanged and whatever its length,
    next to the plan: it does not compare the number of tasks with the
    number of files of the plan.  It fails the run only when the model
    raises or returns nothing.  An empty task list passes the architect
    and fails the run one stage later, at the first call of the coder. *)
Theorem architect_returns_task_plan_unchecked (env : ArchitectEnv) (state : State)
    (p : Plan) :
  get "plan" state = VPlan p ->
  (forall tp, task_plan_response env = Ok (Some tp) ->
     architect_agent env state =
       Ok (<["task_plan" := VTaskPlan tp]> (<["plan" := VPlan p]> ∅)) /\
     (implementation_steps tp = [] ->
        forall cenv,
          ret (coder_agent cenv (<["task_plan" := VTaskPlan tp]> (<["plan" := VPlan p]> ∅)))
            = Raise (ValueError
                "Task plan is empty. Architect agent did not supply implementation steps."))) /\
  (task_plan_response env = Ok None -> raises (architect_agent env state)) /\
  (forall e, task_plan_response env = Raise e -> architect_agent env state = Raise e) /\
  (raises (architect_agent env state) <->
     task_plan_response env = Ok None \/ raises (task_plan_response env)).
Proof.
  intros H. rewrite (architect_agent_on_plan env state p H).
  split; [|split; [|split]].
  - intros tp ->. split; [reflexivity|].
    intros Hs cenv. unfold coder_agent.
    replace (initial_coder_state _) with
      (Ok {| task_plan := tp; current_step_idx := 0;
             current_file_content := None; retry_attempts := 0 |}) by reflexivity.
    simpl. rewrite Hs. reflexivity.
  - intros ->. eexists. reflexivity.
  - intros e ->. reflexivity.
  - destruct (task_plan_response env) as [[tp|]|e]; split.
    + intros [e He]. discriminate.
    + intros [Hn|[e He]]; discriminate.
    + intros _. left. reflexivity.
    + intros _. eexists. reflexivity.
    + intros _. right. eexists. reflexivity.
    + intros _. eexists. reflexivity.
Qed.

(** A plan of two files for which the model returns one task: the
    architect returns that one-task plan and the run goes on. *)
Lemma architect_accepts_short_task_plan :
  architect_agent short_architect (<["plan" := VPlan two_files]> ∅) =
    Ok (<["task_plan" := VTaskPlan (one_task "app.py")]>
        (<["plan" := VPlan two_files]> ∅)) /\
  ~ architect_checks_count short_architect (<["plan" := VPlan two_files]> ∅).
Proof.
  split; [reflexivity|].
  intros H.
  destruct (H two_files (<["task_plan" := VTaskPlan (one_task "app.py")]>
                         (<["plan" := VPlan two_files]> ∅))) as (tp & G & L);
    [reflexivity|reflexivity|].
  vm_compute in G. injection G as <-. vm_compute in L. discriminate.
Qed.

(** The amended statement on that plan. *)
Lemma architect_returns_task_plan_unchecked_witness :
  architect_agent short_architect (<["plan" := VPlan two_files]> ∅) =
    Ok (<["task_plan" := VTaskPlan (one_task "app.py")]>
        (<["plan" := VPlan two_files]> ∅)).
Proof.
  destruct (architect_returns_task_plan_unchecked short_architect
              (<["plan" := VPlan two_files]> ∅) two_files) as [H _]; [reflexivity|].
  apply (H (one_task "app.py")). reflexivity.
Defined.

End PlanningProofs.

(** ** The security stages *)

Module SecurityProofs.
Import States Graph Examples.
Import PlanningProofs.

Lemma budget_step (n : Node) (state : State) :
  (remediations [n] + remediation_budget (next_node n state) <= remediation_budget n)%nat.
Proof.
  destruct n; simpl; try lia.
  - unfold route_from_coder. destruct (get "status" state); simpl; try lia.
    destruct (String.eqb _ _); simpl; lia.
  - unfold route_from_security. destruct (get "status" state); simpl; try lia.
    destruct (String.eqb _ _); simpl; [lia|].
    destruct (String.eqb _ _); simpl; lia.
Qed.

(** In every run the fixer runs at most once. *)
Lemma fixer_at_most_once (limit : nat) : forall envs k n state,
  (remediations (fst (invoke_from limit envs k n state)) <= remediation_budget n)%nat.
Proof.
  induction limit as [|limit IH]; intros envs k n state.
  - simpl. destruct (decide (n = END)); unfold remediations; simpl; lia.
  - destruct (decide (n = END)) as [->|Hn]; [unfold remediations; simpl; lia|].
    rewrite invoke_from_S by exact Hn.
    pose proof (budget_step n state) as B0.
    destruct (run_node n (envs k) state) as [state'|e].
    + pose proof (IH envs (S k) (next_node n state') state') as H.
      pose proof (budget_step n state') as B.
      destruct (invoke_from limit envs (S k) (next_node n state') state') as [trace r].
      simpl in *. unfold remediations in *. simpl in *.
      destruct (Node_eq_dec n security_fixer); lia.
    + simpl. unfold remediations in *. simpl in *.
      destruct (Node_eq_dec n security_fixer); lia.
Qed.



(** The other way to final verification, when the scan passes, carries
    the counter to the final state. *)
Lemma passing_scan_keeps_counter (limit : nat) (envs : nat -> Env) (k : nat)
    (state : State) :
  Tools.scan_passed (scan_project_security (security_env (envs k))) = true ->
  exists final,
    invoke_from (S (S limit)) envs k security state =
      ([security; final_verification], Ok final) /\
    get "security_attempts" final = get_or "security_attempts" (VInt 0) state.
Proof.
  intros Hs. eexists. split.
  - rewrite invoke_from_S by discriminate. cbn [run_node].
    unfold security_agent. rewrite Hs.
    match goal with
    | |- context [next_node security ?s] =>
        replace (next_node security s) with final_verification by reflexivity
    end.
    rewrite invoke_from_S by discriminate. cbn [run_node next_node].
    destruct limit; reflexivity.
  - reflexivity.
Qed.


(** The scenario of the two-file project, from the prompt to the end:
    two coder calls, a failing scan, one pass of the fixer, and a final
    state whose [security_attempts] is [None]. *)
Example scenario_run :
  fst (direct_agent 100 (fun _ => scenario_world) scenario_input) =
    [planner; architect; coder; coder; security; security_fixer; final_verification] /\
  exists final,
    snd (direct_agent 100 (fun _ => scenario_world) scenario_input) = Ok final /\
    get "security_attempts" final = VNone /\
    get "status" final = VStr "VERIFICATION_COMPLETE".
Proof.
  split; [vm_compute; reflexivity|].
  destruct (snd (direct_agent 100 (fun _ => scenario_world) scenario_input))
    as [final|e] eqn:E; [|vm_compute in E; discriminate].
  exists final. split; [reflexivity|].
  vm_compute in E. injection E as <-. split; vm_compute; reflexivity.
Qed.


End SecurityProofs.

(* ===================================================================== *)
(** * Further properties *)
(* ===================================================================== *)

(** ** The rate limiter: what it stores, when it admits, how long it asks
    to wait *)

Module RateLimiterExtras.
Import RateLimiter RateLimiterProofs.

Lemma filter_length_all {A} (f : A -> bool) (l : list A) :
  (length (List.filter f l) <= length l)%nat.
Proof. induction l as [|x l IH]; simpl; [lia|]. destruct (f x); simpl; lia. Qed.

Lemma filter_length_drop {A} (f : A -> bool) (l : list A) (x : A) :
  In x l -> f x = false -> (length (List.filter f l) < length l)%nat.
Proof.
  induction l as [|y l IH]; simpl; [tauto|]. intros [->|Hin] Hx.
  - rewrite Hx. pose proof (filter_length_all f l). lia.
  - specialize (IH Hin Hx). destruct (f y); simpl; lia.
Qed.

Lemma filter_all_true {A} (f : A -> bool) (l : list A) :
  (forall x, In x l -> f x = true) -> List.filter f l = l.
Proof.
  induction l as [|x l IH]; simpl; intros H; [reflexivity|].
  rewrite (H x (or_introl eq_refl)), IH; [reflexivity|].
  intros y Hy. apply H. right. exact Hy.
Qed.

(** The stored list never outgrows the maximum. *)
Lemma step_within_max c rl :
  Z.of_nat (length (calls rl)) <= max_calls rl ->
  Z.of_nat (length (calls (fst (step c rl)))) <= max_calls rl.
Proof.
  intros H. destruct c as [n|n]; simpl.
  - unfold can_proceed. pose proof (filter_length_all (recent n) (calls rl)) as L.
    fold (prune n (calls rl)) in L.
    destruct (_ >=? _) eqn:G; simpl; [lia|].
    rewrite Z.geb_leb in G. apply Z.leb_gt in G. rewrite length_app. simpl. lia.
  - rewrite wait_time_calls.
    pose proof (filter_length_all (recent n) (calls rl)) as L.
    fold (prune n (calls rl)) in L. lia.
Qed.

(** The timestamps a limiter keeps in memory never number more than its
    maximum, after any calls at any clock readings. *)
Theorem stored_calls_within_max (n : Z) (cs : list call) :
  0 <= n -> Z.of_nat (length (calls (run cs (init n)))) <= n.
Proof.
  intros Hn.
  assert (G : forall cs rl, Z.of_nat (length (calls rl)) <= max_calls rl ->
                Z.of_nat (length (calls (run cs rl))) <= max_calls rl).
  { clear. induction cs as [|c cs IH]; simpl; intros rl H; [exact H|].
    rewrite <- (step_max_calls c rl). apply IH. rewrite step_max_calls.
    apply step_within_max, H. }
  apply (G cs (init n)). simpl. exact Hn.
Qed.

Lemma stored_calls_within_max_witness :
  Z.of_nat (length (calls (run [CanProceed 0; CanProceed 1; CanProceed 2; WaitTime 3;
                                CanProceed 61; CanProceed 62]%Q (init 2)))) <= 2.
Proof.
  apply (stored_calls_within_max 2). lia.
Defined.

Lemma Qmin_is_argument (x y : Q) : Qmin x y = x \/ Qmin x y = y.
Proof.
  unfold Qmin, GenericMinMax.gmin. destruct (x ?= y)%Q; tauto.
Qed.

Lemma fold_min_in (cs : list Q) : forall c, In (fold_left Qmin cs c) (c :: cs).
Proof.
  induction cs as [|d cs IH]; intros c; simpl; [left; reflexivity|].
  destruct (IH (Qmin c d)) as [H|H].
  - rewrite <- H.
    destruct (Qmin_is_argument c d) as [E|E]; rewrite E;
      [left|right; left]; reflexivity.
  - right. right. exact H.
Qed.

Lemma list_min_in (cs : list Q) (m : Q) : list_min cs = Ok m -> In m cs.
Proof.
  destruct cs as [|c cs]; simpl; [discriminate|]. intros [= <-]. apply fold_min_in.
Qed.

Lemma in_prune n ts cs : In ts (prune n cs) <-> In ts cs /\ recent n ts = true.
Proof. unfold prune. apply filter_In. Qed.

(** What [wait_time] answers, case by case. *)
Lemma wait_time_cases now rl :
  (Z.of_nat (length (prune now (calls rl))) < max_calls rl \/ calls rl = []) /\
    fst (wait_time now rl) = Ok 0%Q \/
  calls rl <> [] /\
  max_calls rl <= Z.of_nat (length (prune now (calls rl))) /\
  match list_min (prune now (calls rl)) with
  | Ok oldest =>
      In oldest (prune now (calls rl)) /\
      fst (wait_time now rl) = Ok (Qmax 0 ((60 - (now - oldest)) + 2))%Q
  | Raise e => prune now (calls rl) = [] /\ fst (wait_time now rl) = Raise e
  end.
Proof.
  unfold wait_time. destruct (calls rl) as [|c cs] eqn:E.
  - left. split; [right; reflexivity|reflexivity].
  - remember (prune now (c :: cs)) as kept eqn:K.
    destruct (_ <? _) eqn:L.
    + left. apply Z.ltb_lt in L. split; [left; exact L|reflexivity].
    + right. apply Z.ltb_ge in L. split; [discriminate|]. split; [exact L|].
      destruct (list_min kept) as [oldest|e] eqn:M.
      * split; [apply list_min_in, M|reflexivity].
      * destruct kept; [split; reflexivity|discriminate].
Qed.

(** Sleeping the time [wait_time] asks for is enough: on a limiter that
    admits at least one call per minute and stores no more calls than its
    maximum, a [can_proceed] made at or after the end of that wait is
    admitted. *)
Theorem waiting_is_enough (rl : t) (now w T : Q) :
  1 <= max_calls rl ->
  Z.of_nat (length (calls rl)) <= max_calls rl ->
  fst (wait_time now rl) = Ok w ->
  (now + w <= T)%Q ->
  fst (can_proceed T (snd (wait_time now rl))) = true.
Proof.
  intros Hm Hl Hw HT.
  destruct (can_proceed_spec T (snd (wait_time now rl))) as (A & _ & _ & Mx).
  apply A. rewrite wait_time_calls.
  assert (Mw : max_calls (snd (wait_time now rl)) = max_calls rl).
  { change (snd (wait_time now rl)) with (fst (step (WaitTime now) rl)).
    apply step_max_calls. }
  rewrite Mw.
  pose proof (filter_length_all (recent now) (calls rl)) as L1.
  fold (prune now (calls rl)) in L1.
  pose proof (filter_length_all (recent T) (prune now (calls rl))) as L2.
  fold (prune T (prune now (calls rl))) in L2.
  destruct (wait_time_cases now rl) as [[[Hlt|He] _]|(Hne & Hge & Hmin)].
  - lia.
  - rewrite He. simpl. lia.
  - destruct (list_min (prune now (calls rl))) as [oldest|e].
    + destruct Hmin as [Hin E]. rewrite E in Hw. injection Hw as <-.
      assert (Hold : recent T oldest = false).
      { unfold recent. destruct (Qlt_le_dec (T - oldest) 60) as [H|H]; [|reflexivity].
        exfalso.
        pose proof (Q.le_max_r 0 (60 - (now - oldest) + 2)) as Hx. lra. }
      pose proof (filter_length_drop (recent T) _ oldest Hin Hold) as L3.
      fold (prune T (prune now (calls rl))) in L3. lia.
    + destruct Hmin as [_ E]. rewrite E in Hw. discriminate.
Qed.

Lemma waiting_is_enough_witness :
  fst (can_proceed 62
         (snd (wait_time 3 (run [CanProceed 0; CanProceed 1] (init 2)))))%Q = true.
Proof.
  apply (waiting_is_enough (run [CanProceed 0; CanProceed 1]%Q (init 2)) 3 59 62)%Q.
  - vm_compute. discriminate.
  - vm_compute. discriminate.
  - vm_compute. reflexivity.
  - vm_compute. discriminate.
Defined.

(** The wait [wait_time] answers, on a limiter that admits at least one
    call per minute and whose stored readings are not in the future: it
    is 0 exactly when fewer than [max_calls] readings are recent, that is
    when [can_proceed] would admit; otherwise it is more than 2 and at
    most 62 seconds. *)
Theorem wait_time_range (rl : t) (now : Q) :
  1 <= max_calls rl ->
  Forall (fun ts => ts <= now)%Q (calls rl) ->
  exists w,
    fst (wait_time now rl) = Ok w /\
    (Z.of_nat (length (prune now (calls rl))) < max_calls rl /\ w = 0%Q \/
     max_calls rl <= Z.of_nat (length (prune now (calls rl))) /\ (2 < w /\ w <= 62)%Q).
Proof.
  intros Hm Hpast.
  destruct (wait_time_cases now rl) as [[[Hlt|He] E]|(Hne & Hge & Hmin)].
  - exists 0%Q. split; [exact E|left; split; [exact Hlt|reflexivity]].
  - exists 0%Q. split; [exact E|left; split; [rewrite He; simpl; lia|reflexivity]].
  - destruct (list_min (prune now (calls rl))) as [oldest|e].
    + destruct Hmin as [Hin E]. eexists. split; [exact E|right]. split; [exact Hge|].
      apply in_prune in Hin as [Hin Hr]. apply recent_true in Hr.
      pose proof (proj1 (List.Forall_forall _ _) Hpast oldest Hin) as Hp.
      simpl in Hp. split.
      * apply Qlt_le_trans with (60 - (now - oldest) + 2)%Q; [lra|apply Q.le_max_r].
      * apply Q.max_lub; lra.
    + destruct Hmin as [K _]. rewrite K in Hge. simpl in Hge. lia.
Qed.

Lemma wait_time_range_witness :
  exists w,
    fst (wait_time 3 (run [CanProceed 0; CanProceed 1]%Q (init 2))) = Ok w /\
    (Z.of_nat (length (prune 3 (calls (run [CanProceed 0; CanProceed 1]%Q (init 2)))))
       < max_calls (run [CanProceed 0; CanProceed 1]%Q (init 2)) /\ w = 0%Q \/
     max_calls (run [CanProceed 0; CanProceed 1]%Q (init 2))
       <= Z.of_nat (length (prune 3 (calls (run [CanProceed 0; CanProceed 1]%Q (init 2)))))
     /\ (2 < w /\ w <= 62)%Q).
Proof.
  apply (wait_time_range (run [CanProceed 0; CanProceed 1]%Q (init 2)) 3).
  - vm_compute. discriminate.
  - vm_compute. repeat constructor; discriminate.
Defined.

(** A burst: calls whose readings all lie within 60 seconds of one
    another. *)
Lemma burst_from (ts : list Q) : forall rl,
  (forall t u, In t (calls rl ++ ts) -> In u ts -> recent u t = true) ->
  admissions (List.map CanProceed ts) rl =
    firstn (Z.to_nat (max_calls rl - Z.of_nat (length (calls rl)))) ts.
Proof.
  induction ts as [|u ts IH]; intros rl H; simpl.
  - rewrite firstn_nil. reflexivity.
  - assert (K : prune u (calls rl) = calls rl).
    { apply filter_all_true. intros t Ht. apply H; [apply in_or_app; left; exact Ht|].
      left. reflexivity. }
    unfold can_proceed. rewrite K.
    destruct (_ >=? _) eqn:G; simpl.
    + apply Z.geb_le in G.
      rewrite IH; simpl.
      * replace (Z.to_nat (max_calls rl - Z.of_nat (length (calls rl)))) with 0%nat
          by lia. reflexivity.
      * intros t x Ht Hx. apply H; [|right; exact Hx].
        apply in_app_or in Ht as [Ht|Ht]; apply in_or_app; [left|right; right]; exact Ht.
    + rewrite Z.geb_leb in G. apply Z.leb_gt in G.
      rewrite IH; simpl.
      * rewrite length_app. simpl.
        replace (Z.to_nat (max_calls rl - Z.of_nat (length (calls rl))))
          with (S (Z.to_nat (max_calls rl - Z.of_nat (length (calls rl) + 1)))) by lia.
        reflexivity.
      * intros t x Ht Hx. apply H; [|right; exact Hx].
        apply in_app_or in Ht as [Ht|Ht].
        -- apply in_app_or in Ht as [Ht|[<-|[]]]; apply in_or_app;
             [left; exact Ht|right; left; reflexivity].
        -- apply in_or_app. right. right. exact Ht.
Qed.

(** In a burst of [can_proceed] calls on a fresh limiter, whose readings
    all lie within 60 seconds of one another, exactly the first
    [max_calls] calls are admitted and every later one is refused. *)
Theorem burst_admits_first_max (n : Z) (ts : list Q) :
  (forall t u, In t ts -> In u ts -> (u - t < 60)%Q) ->
  admissions (List.map CanProceed ts) (init n) = firstn (Z.to_nat n) ts.
Proof.
  intros H. rewrite burst_from; simpl.
  - rewrite Z.sub_0_r. reflexivity.
  - intros t u Ht Hu. apply recent_true. apply H; assumption.
Qed.

Lemma burst_admits_first_max_witness :
  admissions (List.map CanProceed [100; 110; 120; 159]%Q) (init 2) = [100; 110]%Q.
Proof.
  apply (burst_admits_first_max 2 [100; 110; 120; 159]%Q).
  intros t u Ht Hu. simpl in Ht, Hu.
  destruct Ht as [<-|[<-|[<-|[<-|[]]]]]; destruct Hu as [<-|[<-|[<-|[<-|[]]]]];
    vm_compute; reflexivity.
Defined.

Lemma rate_limit_check_tidy p now1 now2 g :
  tidy (gemini_limiter g) -> tidy (groq_limiter g) ->
  tidy (gemini_limiter (snd (rate_limit_check p now1 now2 g))) /\
  tidy (groq_limiter (snd (rate_limit_check p now1 now2 g))).
Proof.
  intros Hg Hq. unfold rate_limit_check.
  destruct (RATE_LIMIT_DISABLED g); [split; assumption|].
  set (l := if String.eqb p "gemini" then gemini_limiter g else groq_limiter g).
  assert (Hl : tidy l) by (unfold l; destruct (String.eqb p "gemini"); assumption).
  pose proof (tidy_step (CanProceed now1) l Hl) as H1. simpl in H1.
  destruct (can_proceed now1 l) as [ok l1]. simpl in H1.
  pose proof (tidy_step (WaitTime now2) l1 H1) as H2. simpl in H2.
  destruct ok; simpl.
  - destruct (String.eqb p "gemini"); simpl; split; assumption.
  - destruct (wait_time now2 l1) as [w l2]. simpl in *.
    destruct (String.eqb p "gemini"); simpl; split; assumption.
Qed.

Lemma checks_answer (cks : list (string * Q * Q)) : forall g,
  tidy (gemini_limiter g) -> tidy (groq_limiter g) ->
  Forall returns (fst (Config.checks cks g)).
Proof.
  induction cks as [|[[p now1] now2] cks IH]; intros g Hg Hq; simpl.
  - constructor.
  - pose proof (rate_limit_check_returns p now1 now2 g Hg Hq) as R.
    pose proof (rate_limit_check_tidy p now1 now2 g Hg Hq) as [T1 T2].
    destruct (rate_limit_check p now1 now2 g) as [answer g1]. simpl in *.
    specialize (IH g1 T1 T2).
    destruct (Config.checks cks g1) as [answers g2]. simpl in *.
    constructor; assumption.
Qed.

(** [rate_limit_check] never raises: on limiters built by
    [RateLimiter(n)] and used only through it, every check of every
    provider at every clock reading returns its pair, whatever the maxima,
    zero and negative ones included.  The [min] of [wait_time] never
    meets an empty list. *)
Theorem rate_limit_check_always_answers (disabled : bool) (n m : Z)
    (cks : list (string * Q * Q)) :
  Forall returns
    (fst (Config.checks cks
            {| RATE_LIMIT_DISABLED := disabled;
               gemini_limiter := init n; groq_limiter := init m |})).
Proof. apply checks_answer; apply tidy_init. Qed.

Section Configured.
Variable getenv : string -> option string.
Variable py_int : string -> option Z.

Lemma get_int_env_positive (name : string) (default : Z) :
  0 < default -> 0 < Config._get_int_env getenv py_int name default.
Proof.
  intros H. unfold Config._get_int_env.
  destruct (getenv name) as [v|]; [|exact H].
  destruct (py_int v) as [parsed|]; [|exact H].
  destruct (0 <? parsed) eqn:E; [apply Z.ltb_lt, E|exact H].
Qed.

(** Whatever the environment variables hold, unset, empty, not a number,
    zero or negative, the limiter the module creates for Gemini admits at
    least one call per minute and never stores more calls than its
    maximum; so sleeping the wait it answers is enough to be admitted. *)
Theorem configured_limiter_wait_is_enough (cs : list call) (now w T : Q) :
  let limiter := run cs (init (Config.GEMINI_MAX_CALLS getenv py_int)) in
  fst (wait_time now limiter) = Ok w ->
  (now + w <= T)%Q ->
  1 <= max_calls limiter /\
  Z.of_nat (length (calls limiter)) <= max_calls limiter /\
  fst (can_proceed T (snd (wait_time now limiter))) = true.
Proof.
  intros limiter Hw HT.
  assert (P : 0 < Config.GEMINI_MAX_CALLS getenv py_int)
    by (apply get_int_env_positive; lia).
  assert (G : forall cs rl, max_calls (run cs rl) = max_calls rl).
  { clear. induction cs as [|c cs IH]; simpl; intros rl; [reflexivity|].
    rewrite IH. apply step_max_calls. }
  assert (M : max_calls limiter = Config.GEMINI_MAX_CALLS getenv py_int)
    by (unfold limiter; rewrite G; reflexivity).
  assert (L : Z.of_nat (length (calls limiter)) <= max_calls limiter).
  { rewrite M. apply stored_calls_within_max. lia. }
  split; [lia|]. split; [exact L|].
  apply (waiting_is_enough limiter now w T); [lia|exact L|exact Hw|exact HT].
Qed.

End Configured.

(** The environment of a deployment that sets the limit to "0". *)
Lemma configured_limiter_wait_is_enough_witness :
  let getenv := fun name : string =>
    if String.eqb name "GEMINI_MAX_CALLS_PER_MINUTE" then Some "0" else None in
  let py_int := fun v : string => if String.eqb v "0" then Some 0 else None in
  let limiter := run [CanProceed 0] (init (Config.GEMINI_MAX_CALLS getenv py_int)) in
  1 <= max_calls limiter /\
  Z.of_nat (length (calls limiter)) <= max_calls limiter /\
  fst (can_proceed 5 (snd (wait_time 1 limiter))) = true.
Proof.
  intros getenv py_int.
  apply (configured_limiter_wait_is_enough getenv py_int [CanProceed 0] 1 0 5)%Q.
  - vm_compute. reflexivity.
  - vm_compute. discriminate.
Defined.

End RateLimiterExtras.

(** ** The token counter *)

Module TokenCounterProofs.
Import TokenCounter.

Lemma add_all_spec (adds : list (Z * Q)) : forall tc,
  total_tokens (add_all adds tc) = total_tokens tc + sum_counts adds /\
  request_tokens (add_all adds tc) = request_tokens tc ++ adds.
Proof.
  unfold add_all.
  induction adds as [|a adds IH]; intros tc; simpl.
  - rewrite app_nil_r. split; lia || reflexivity.
  - destruct (IH (add_tokens (fst a) (snd a) tc)) as [T R]. rewrite T, R. simpl.
    split; [lia|]. rewrite <- app_assoc. destruct a. reflexivity.
Qed.

Lemma sum_counts_filter (f : Z * Q -> bool) (reqs : list (Z * Q)) :
  Forall (fun r => 0 <= fst r) reqs ->
  0 <= sum_counts (List.filter f reqs) <= sum_counts reqs.
Proof.
  induction 1 as [|r reqs Hr _ IH]; simpl; [lia|].
  destruct (f r); simpl; lia.
Qed.

(** The counter after any series of [add_tokens]: the total is the sum of
    the counts added, and the list holds one record per call, in order.
    When no count is negative the tokens of the last hour are between 0
    and the total; when every record is less than an hour old they are the
    total. *)
Theorem token_counter_totals (adds : list (Z * Q)) (now : Q) :
  let tc := add_all adds init in
  get_total tc = sum_counts adds /\
  request_tokens tc = adds /\
  (Forall (fun a => 0 <= fst a) adds ->
     0 <= get_session_tokens now tc <= get_total tc) /\
  (Forall (fun a => (now - 3600 < snd a)%Q) adds ->
     get_session_tokens now tc = get_total tc).
Proof.
  intros tc. destruct (add_all_spec adds init) as [T R].
  fold tc in T, R. simpl in T, R. unfold get_total, get_session_tokens.
  rewrite T, R, Z.add_0_l. repeat split; try reflexivity.
  - apply sum_counts_filter, H.
  - apply sum_counts_filter, H.
  - intros H. f_equal. apply RateLimiterExtras.filter_all_true.
    intros a Ha. pose proof (proj1 (List.Forall_forall _ _) H a Ha) as Hx.
    simpl in Hx. unfold within_hour.
    destruct (Qlt_le_dec (now - 3600) (snd a)) as [_|C]; [reflexivity|].
    exfalso. apply (Qle_not_lt _ _ C Hx).
Qed.

(** Three requests, the first of them more than an hour old. *)
Lemma token_counter_totals_witness :
  0 <= get_session_tokens 4000 (add_all [(10, 0%Q); (20, 3000%Q); (5, 3900%Q)] init)
    <= get_total (add_all [(10, 0%Q); (20, 3000%Q); (5, 3900%Q)] init).
Proof.
  apply (token_counter_totals [(10, 0%Q); (20, 3000%Q); (5, 3900%Q)] 4000%Q).
  repeat constructor; simpl; lia.
Defined.

Example session_tokens_drop_old :
  get_session_tokens 4000 (add_all [(10, 0%Q); (20, 3000%Q); (5, 3900%Q)] init) = 25 /\
  get_total (add_all [(10, 0%Q); (20, 3000%Q); (5, 3900%Q)] init) = 35.
Proof. vm_compute. split; reflexivity. Qed.

End TokenCounterProofs.

(** ** The file tools: what a write leaves behind *)

Module ToolsExtras.
Import Tools SandboxProofs Examples.

Lemma open_write_result fs p content fs' :
  open_write fs p content = Ok fs' ->
  p <> [] /\ fs' = <[p := Regular content]> fs.
Proof.
  unfold open_write. destruct p as [|c p']; [discriminate|].
  destruct (fs !! (c :: p')) as [[| |]|]; try discriminate;
    destruct (is_dir fs (parent (c :: p'))); try discriminate;
    intros [= <-]; split; (discriminate || reflexivity).
Qed.

Lemma mkdir1_keeps fs d fs' q e :
  mkdir1 fs d = Ok fs' -> fs !! q = Some e -> fs' !! q = Some e.
Proof.
  unfold mkdir1. destruct d as [|c d']; [intros [= <-]; tauto|].
  destruct (fs !! (c :: d')) as [[| |]|] eqn:E; try discriminate;
    intros [= <-]; [tauto|].
  intros Hq. rewrite lookup_insert_ne; [exact Hq|]. congruence.
Qed.

Lemma mkdir_chain_keeps ds : forall fs fs' q e,
  mkdir_chain fs ds = Ok fs' -> fs !! q = Some e -> fs' !! q = Some e.
Proof.
  induction ds as [|d ds IH]; simpl; intros fs fs' q e H Hq.
  - injection H as <-. exact Hq.
  - destruct (mkdir1 fs d) as [fs1|x] eqn:E1; [|discriminate].
    eapply IH; [exact H|]. eapply mkdir1_keeps; eassumption.
Qed.

Section Sandbox.
Variable root : RPath.
Variable resolve : string -> RPath.

(** What a successful [write_file] went through. *)
Lemma write_file_ok path content fs msg fs' :
  write_file root resolve path content fs = (Ok msg, fs') ->
  inside root (resolve path) /\ resolve path <> [] /\
  msg = ("WROTE:" ++ path_str (resolve path))%string /\
  exists fs1, mkdir_parents fs (parent (resolve path)) = Ok fs1 /\
              fs' = <[resolve path := Regular content]> fs1.
Proof.
  intros H. destruct (inside_or_not root (resolve path)) as [Hin|Hout].
  2:{ unfold write_file in H. rewrite (safe_path_outside root resolve path Hout) in H.
      discriminate. }
  split; [exact Hin|]. unfold write_file in H.
  rewrite (safe_path_inside root resolve path Hin) in H.
  destruct (mkdir_parents fs (parent (resolve path))) as [fs1|e] eqn:M; [|discriminate].
  destruct (open_write fs1 (resolve path) content) as [fs2|e] eqn:W; [|discriminate].
  injection H as <- <-. apply open_write_result in W as [Hp ->].
  split; [exact Hp|]. split; [reflexivity|]. exists fs1. split; reflexivity.
Qed.

(** Round trip: after a [write_file] that returned, [read_file] of the
    same path returns the content written. *)
Theorem read_after_write (path content : string) (fs fs' : FS) (msg : string) :
  write_file root resolve path content fs = (Ok msg, fs') ->
  read_file root resolve path fs' = Ok content.
Proof.
  intros H. apply write_file_ok in H as (Hin & Hp & _ & fs1 & _ & ->).
  unfold read_file. rewrite (safe_path_inside root resolve path Hin). simpl.
  unfold exists_, open_read. destruct (resolve path) as [|c p']; [congruence|].
  rewrite lookup_insert_eq. simpl. reflexivity.
Qed.

(** [write_file] never removes or changes an entry of the file tree other
    than its target, whether it returns or raises: every file and
    directory that was there at another path is still there, unchanged. *)
Theorem write_file_keeps_other_entries (path content : string) (fs : FS)
    (q : RPath) (e : Entry) :
  q <> resolve path ->
  fs !! q = Some e ->
  snd (write_file root resolve path content fs) !! q = Some e.
Proof.
  intros Hq He. unfold write_file.
  destruct (safe_path_for_project root resolve path) as [p|x] eqn:S; [|exact He].
  assert (Ep : p = resolve path).
  { unfold safe_path_for_project in S. destruct (_ && _); congruence. }
  subst p.
  destruct (mkdir_parents fs (parent (resolve path))) as [fs1|x] eqn:M; [|exact He].
  assert (H1 : fs1 !! q = Some e)
    by (unfold mkdir_parents in M; eapply mkdir_chain_keeps; eassumption).
  destruct (open_write fs1 (resolve path) content) as [fs2|x] eqn:W; [|exact H1].
  apply open_write_result in W as [_ ->]. simpl.
  rewrite lookup_insert_ne; [exact H1|]. congruence.
Qed.

End Sandbox.

Lemma read_after_write_witness :
  read_file demo_root (lexical_resolve demo_root) "src/app.py"
    (snd (write_file demo_root (lexical_resolve demo_root) "src/app.py" "print(1)"
            demo_fs)) = Ok "print(1)".
Proof.
  apply (read_after_write demo_root (lexical_resolve demo_root) "src/app.py" "print(1)"
           demo_fs _ "WROTE:/home/proj/src/app.py").
  vm_compute. reflexivity.
Defined.

Lemma write_file_keeps_other_entries_witness :
  snd (write_file demo_root (lexical_resolve demo_root) "src/app.py" "print(1)" demo_fs)
    !! ["home"; "proj"; "notes.txt"] = Some (Regular "todo").
Proof.
  apply (write_file_keeps_other_entries demo_root (lexical_resolve demo_root)).
  - vm_compute. discriminate.
  - vm_compute. reflexivity.
Defined.

End ToolsExtras.

(** ** The project directory *)

Module ProjectSetupProofs.
Import Tools ProjectSetup Examples.

Lemma all_chars_weaken (P Q : ascii -> bool) (s : string) :
  (forall c, P c = true -> Q c = true) -> all_chars P s = true -> all_chars Q s = true.
Proof.
  intros H. induction s as [|c r IH]; simpl; [reflexivity|].
  intros E. apply andb_true_iff in E as [E1 E2].
  rewrite (H c E1), (IH E2). reflexivity.
Qed.

Lemma lower_no_upper (s : string) :
  ascii_only s -> all_chars (fun c => negb (is_upper c)) (lower s) = true.
Proof.
  induction s as [|c r IH]; simpl; [reflexivity|]. intros [Hc Hr].
  rewrite (IH Hr), andb_true_r.
  destruct (is_upper c) eqn:U; [|rewrite U; reflexivity].
  unfold is_upper in *. apply andb_true_iff in U as [U1 U2].
  apply Nat.leb_le in U1, U2.
  rewrite nat_ascii_embedding by lia.
  apply negb_true_iff, andb_false_iff. right. apply Nat.leb_gt. lia.
Qed.

Lemma drop_specials_chars (P : ascii -> bool) (s : string) :
  all_chars P s = true ->
  all_chars (fun c => P c && (is_word c || Py.is_space c || Ascii.eqb c "-"%char))
    (drop_specials s) = true.
Proof.
  induction s as [|c r IH]; simpl; [reflexivity|]. intros E.
  apply andb_true_iff in E as [E1 E2].
  destruct (is_word c || Py.is_space c || Ascii.eqb c "-"%char) eqn:K; simpl.
  - rewrite E1, K, (IH E2). reflexivity.
  - apply IH, E2.
Qed.

Lemma kept_char_is_name_char (c : ascii) :
  negb (is_upper c) && (is_word c || Py.is_space c || Ascii.eqb c "-"%char) = true ->
  is_separator c = false -> name_char c = true.
Proof.
  unfold is_separator, is_word, name_char. intros H S.
  apply orb_false_iff in S as [S1 S2]. rewrite S1, S2 in H.
  destruct (is_upper c); simpl in H; [discriminate|].
  rewrite orb_false_r in H. rewrite orb_false_r in H.
  rewrite S2, orb_false_r. exact H.
Qed.

Lemma collapse_chars (s : string) : forall in_run,
  all_chars (fun c => negb (is_upper c) &&
                      (is_word c || Py.is_space c || Ascii.eqb c "-"%char)) s = true ->
  all_chars name_char (collapse_from in_run s) = true.
Proof.
  induction s as [|c r IH]; intros in_run; simpl; [reflexivity|]. intros E.
  apply andb_true_iff in E as [E1 E2].
  destruct (is_separator c) eqn:S.
  - destruct in_run; simpl; [apply IH, E2|]. rewrite (IH true E2). reflexivity.
  - simpl. rewrite (kept_char_is_name_char c E1 S), (IH false E2). reflexivity.
Qed.

Lemma lstrip_underscores_chars P s :
  all_chars P s = true -> all_chars P (lstrip_underscores s) = true.
Proof.
  induction s as [|c r IH]; simpl; [reflexivity|]. intros E.
  destruct (Ascii.eqb c "_"%char); [|exact E].
  apply andb_true_iff in E as [_ E2]. apply IH, E2.
Qed.

Lemma rstrip_underscores_chars P s :
  all_chars P s = true -> all_chars P (rstrip_underscores s) = true.
Proof.
  induction s as [|c r IH]; simpl; [reflexivity|]. intros E.
  apply andb_true_iff in E as [E1 E2]. specialize (IH E2).
  destruct (rstrip_underscores r) as [|c' r'].
  - destruct (Ascii.eqb c "_"%char); simpl; [reflexivity|]. rewrite E1. reflexivity.
  - simpl in *. rewrite E1, IH. reflexivity.
Qed.

Lemma take_chars P n s : all_chars P s = true -> all_chars P (Py.take n s) = true.
Proof.
  unfold Py.take. revert n. induction s as [|c r IH]; intros n; simpl.
  - destruct n; reflexivity.
  - intros E. apply andb_true_iff in E as [E1 E2].
    destruct n; simpl; [reflexivity|]. rewrite E1, (IH n E2). reflexivity.
Qed.

Lemma take_length n s : String.length (Py.take n s) = Nat.min n (String.length s).
Proof.
  unfold Py.take. revert n. induction s as [|c r IH]; intros n; simpl.
  - destruct n; reflexivity.
  - destruct n; simpl; [reflexivity|]. rewrite IH. reflexivity.
Qed.

Lemma name_char_no_path_syntax (c : ascii) :
  name_char c = true -> c <> "/"%char /\ c <> "."%char /\ c <> "\"%char.
Proof.
  intros H. repeat split; intros ->; vm_compute in H; discriminate.
Qed.

(** The directory name [set_project_root] derives from the project name
    the model gave, for any project name of 7-bit characters: it is not
    empty, has at most 50 characters, and holds only lower-case letters,
    digits, underscores and hyphens; so it holds no slash and no dot, and
    the new project root is a directory directly inside the working
    directory, whatever the model wrote.  When the call returns, that
    directory exists and every entry the tree held is still there. *)
Theorem project_root_is_a_safe_child (cwd : RPath) (project_name : string) (fs : FS) :
  ascii_only project_name ->
  let '(r, PROJECT_ROOT, fs') := set_project_root cwd project_name fs in
  clean_name project_name <> EmptyString /\
  (String.length (clean_name project_name) <= 50)%nat /\
  all_chars name_char (clean_name project_name) = true /\
  PROJECT_ROOT = cwd ++ [clean_name project_name] /\
  parent PROJECT_ROOT = cwd /\
  (returns r ->
     r = Ok (path_str PROJECT_ROOT) /\ is_dir fs' PROJECT_ROOT = true /\
     forall q e, fs !! q = Some e -> fs' !! q = Some e).
Proof.
  intros Ha.
  assert (C : clean_name project_name <> EmptyString /\
              (String.length (clean_name project_name) <= 50)%nat /\
              all_chars name_char (clean_name project_name) = true).
  { unfold clean_name.
    set (c1 := strip_underscores (collapse (drop_specials (lower project_name)))).
    assert (H1 : all_chars name_char c1 = true).
    { unfold c1, strip_underscores, collapse.
      apply rstrip_underscores_chars, lstrip_underscores_chars, collapse_chars.
      apply drop_specials_chars, lower_no_upper, Ha. }
    set (c2 := if (50 <? String.length c1)%nat then Py.take 50 c1 else c1).
    assert (H2 : all_chars name_char c2 = true /\ (String.length c2 <= 50)%nat).
    { unfold c2. destruct (50 <? String.length c1)%nat eqn:L.
      - split; [apply take_chars, H1|]. rewrite take_length. lia.
      - apply Nat.ltb_ge in L. split; assumption. }
    destruct (String.eqb c2 EmptyString) eqn:E.
    - split; [discriminate|]. split; [simpl; lia|reflexivity].
    - apply String.eqb_neq in E. tauto. }
  unfold set_project_root.
  destruct (mkdir_parents fs (cwd ++ [clean_name project_name])) as [fs'|e] eqn:M.
  - destruct C as (C1 & C2 & C3). repeat split; try assumption.
    + unfold parent. apply removelast_last.
    + unfold mkdir_parents in M. eapply SandboxProofs.mkdir_chain_last, M.
    + intros q e Hq. unfold mkdir_parents in M.
      eapply ToolsExtras.mkdir_chain_keeps; eassumption.
  - destruct C as (C1 & C2 & C3). repeat split; try assumption.
    + unfold parent. apply removelast_last.
    + destruct H as [a Ha']. discriminate.
    + destruct H as [a Ha']. discriminate.
    + destruct H as [a Ha']. discriminate.
Qed.

(** A project name that tries to climb out of the working directory. *)
Lemma project_root_is_a_safe_child_witness :
  let '(r, PROJECT_ROOT, fs') :=
    set_project_root ["home"] "../../etc/Cron Jobs!" demo_fs in
  clean_name "../../etc/Cron Jobs!" <> EmptyString /\
  (String.length (clean_name "../../etc/Cron Jobs!") <= 50)%nat /\
  all_chars name_char (clean_name "../../etc/Cron Jobs!") = true /\
  PROJECT_ROOT = ["home"] ++ [clean_name "../../etc/Cron Jobs!"] /\
  parent PROJECT_ROOT = ["home"] /\
  (returns r ->
     r = Ok (path_str PROJECT_ROOT) /\ is_dir fs' PROJECT_ROOT = true /\
     forall q e, demo_fs !! q = Some e -> fs' !! q = Some e).
Proof.
  apply (project_root_is_a_safe_child ["home"] "../../etc/Cron Jobs!" demo_fs).
  vm_compute. repeat split; lia.
Defined.

Example clean_name_climbing : clean_name "../../etc/Cron Jobs!" = "etccron_jobs".
Proof. vm_compute. reflexivity. Qed.

End ProjectSetupProofs.

(** ** The findings of the scanner *)

Module ScannerExtras.
Import Tools Findings Examples.

Lemma count_nl_take (n : nat) (s : string) :
  (Py.count_nl (Py.take n s) <= Py.count_nl s)%nat.
Proof.
  unfold Py.take. revert n. induction s as [|c r IH]; intros n; simpl.
  - destruct n; simpl; lia.
  - destruct n; simpl; [lia|]. specialize (IH n). lia.
Qed.

Section Scanner.
Variable finditer : string -> string -> list (nat * nat).
Variable root : RPath.

Lemma scan_matches_shape file_path rel category label severity content :
  relative_to root file_path = Ok rel ->
  forall matches issues,
    scan_matches root file_path category label severity content matches issues =
      (issues ++ List.map (finding rel category label severity content)
                   (List.filter (fun m => negb (in_comment content m)) matches),
       None).
Proof.
  intros Hrel. induction matches as [|m ms IH]; intros issues; simpl.
  - rewrite app_nil_r. reflexivity.
  - destruct (in_comment content m); simpl; [apply IH|].
    rewrite Hrel, IH, <- app_assoc. reflexivity.
Qed.

Lemma scan_patterns_shape file_path rel category label severity content :
  relative_to root file_path = Ok rel ->
  forall patterns issues,
    scan_patterns finditer root file_path category label severity content patterns issues
      = (issues ++ List.flat_map
                     (fun pattern =>
                        List.map (finding rel category label severity content)
                                 (live_matches finditer content pattern))
                     patterns,
         None).
Proof.
  intros Hrel. induction patterns as [|pattern ps IH]; intros issues; simpl.
  - rewrite app_nil_r. reflexivity.
  - rewrite (scan_matches_shape _ _ _ _ _ _ Hrel), IH, <- app_assoc. reflexivity.
Qed.

Lemma scan_table_shape file_path rel label severity content :
  relative_to root file_path = Ok rel ->
  forall table issues,
    scan_table finditer root file_path label severity content table issues =
      (issues ++ table_findings finditer rel label severity content table, None).
Proof.
  intros Hrel. induction table as [|[category patterns] table IH]; intros issues; simpl.
  - rewrite app_nil_r. reflexivity.
  - rewrite (scan_patterns_shape _ _ _ _ _ _ Hrel), IH, <- app_assoc. reflexivity.
Qed.

(** A finding of a table, read back. *)
Lemma in_table_findings rel label severity content table i :
  In i (table_findings finditer rel label severity content table) ->
  i_file i = rel /\ i_severity i = severity /\
  In (i_category i) (List.map fst table) /\
  i_issue i = ("Potential " ++ underscores_to_spaces (i_category i) ++ label)%string /\
  1 <= i_line i <= Z.of_nat (Py.count_nl content) + 1.
Proof.
  unfold table_findings. intros H.
  apply in_flat_map in H as ([category patterns] & Hentry & H).
  apply in_flat_map in H as (pattern & _ & H).
  apply in_map_iff in H as (m & <- & _). simpl.
  repeat split; try reflexivity.
  - apply in_map_iff. exists (category, patterns). split; [reflexivity|exact Hentry].
  - lia.
  - pose proof (count_nl_take (fst m) content). lia.
Qed.

(** The findings of one readable file under the project root: exactly one
    issue for every match that is not on a comment line, first those of
    the secret patterns, then those of the vulnerability checks, each in
    table order.  Every issue names the file by its path relative to the
    root, carries a line number from 1 to the number of lines of the
    file, and has severity HIGH with a category of [SECURITY_PATTERNS] or
    severity MEDIUM with a category of [SECURITY_CHECKS]. *)
Theorem scan_file_findings (fs : FS) (file_path : RPath) (content rel : string) :
  open_read fs file_path = Ok content ->
  relative_to root file_path = Ok rel ->
  scan_file_security finditer root fs file_path =
    table_findings finditer rel " exposed" "HIGH" content SECURITY_PATTERNS ++
    table_findings finditer rel " vulnerability" "MEDIUM" content SECURITY_CHECKS /\
  forall i, In i (scan_file_security finditer root fs file_path) ->
    i_file i = rel /\
    1 <= i_line i <= Z.of_nat (Py.count_nl content) + 1 /\
    (i_severity i = "HIGH" /\ In (i_category i) (List.map fst SECURITY_PATTERNS) \/
     i_severity i = "MEDIUM" /\ In (i_category i) (List.map fst SECURITY_CHECKS)).
Proof.
  intros Hread Hrel.
  assert (E : scan_file_security finditer root fs file_path =
    table_findings finditer rel " exposed" "HIGH" content SECURITY_PATTERNS ++
    table_findings finditer rel " vulnerability" "MEDIUM" content SECURITY_CHECKS).
  { unfold scan_file_security, scan_file_try. rewrite Hread.
    rewrite (scan_table_shape _ _ _ _ _ Hrel). simpl app at 1.
    rewrite (scan_table_shape _ _ _ _ _ Hrel). reflexivity. }
  split; [exact E|]. intros i Hi. rewrite E in Hi.
  apply in_app_or in Hi as [Hi|Hi]; apply in_table_findings in Hi as (F & S & C & _ & L).
  - split; [exact F|]. split; [exact L|]. left. split; assumption.
  - split; [exact F|]. split; [exact L|]. right. split; assumption.
Qed.

Lemma strictly_below_relative (p : RPath) :
  (exists c rest, strip_root root p = Some (c :: rest)) ->
  exists rel, relative_to root p = Ok rel.
Proof.
  intros (c & rest & H). unfold relative_to. rewrite H. eexists. reflexivity.
Qed.

(** Every issue of a project scan comes from a regular file strictly
    below the project root whose extension is on the list of source
    extensions, a file that could be read, and names that file.  Files of
    any other extension, HTML and CSS among them, are never reported. *)
Theorem scan_reports_only_source_files (fs : FS) (i : Issue) :
  In i (scan_issues (scan_project_security finditer root fs)) ->
  exists file_path content,
    In file_path (scan_targets root fs) /\
    is_file fs file_path = true /\
    In (suffix file_path) extensions /\
    (exists c rest, strip_root root file_path = Some (c :: rest)) /\
    open_read fs file_path = Ok content /\
    relative_to root file_path = Ok (i_file i) /\
    In i (scan_file_security finditer root fs file_path).
Proof.
  unfold scan_project_security.
  destruct (negb (exists_ fs root)); simpl; [tauto|]. intros H.
  apply in_concat in H as (l & Hl & Hi).
  apply in_map_iff in Hl as (p & <- & Hp).
  pose proof Hp as Ht. unfold scan_targets in Ht.
  apply filter_In in Ht as [Hg Hc]. apply andb_true_iff in Hc as [Hf Hs].
  unfold rglob in Hg. apply filter_In in Hg as [_ Hb].
  assert (Hbelow : exists c rest, strip_root root p = Some (c :: rest)).
  { destruct (strip_root root p) as [[|c rest]|]; try discriminate. eauto. }
  destruct (strictly_below_relative p Hbelow) as [rel Hrel].
  destruct (open_read fs p) as [content|e] eqn:R.
  2:{ unfold scan_file_security, scan_file_try in Hi. rewrite R in Hi. destruct Hi. }
  destruct (scan_file_findings fs p content rel R Hrel) as [_ W].
  destruct (W i Hi) as (F & _).
  exists p, content. repeat split; try assumption.
  - apply existsb_exists in Hs as (x & Hx & E). apply String.eqb_eq in E.
    rewrite E. exact Hx.
  - rewrite F. exact Hrel.
Qed.

End Scanner.

(** A project with a password in its Python file and the same text in an
    HTML page. *)
Lemma scan_file_findings_witness :
  scan_file_security demo_finditer demo_root open_fs ["home"; "proj"; "app.py"] =
    table_findings demo_finditer "app.py" " exposed" "HIGH" "password = 'hunter2'"
      SECURITY_PATTERNS ++
    table_findings demo_finditer "app.py" " vulnerability" "MEDIUM"
      "password = 'hunter2'" SECURITY_CHECKS.
Proof.
  apply (scan_file_findings demo_finditer demo_root open_fs ["home"; "proj"; "app.py"]
           "password = 'hunter2'" "app.py").
  - vm_compute. reflexivity.
  - vm_compute. reflexivity.
Defined.

Example scan_file_one_finding :
  scan_file_security demo_finditer demo_root open_fs ["home"; "proj"; "app.py"] =
    [ {| i_file := "app.py"; i_category := "credentials"; i_line := 1;
         i_issue := "Potential credentials exposed"; i_severity := "HIGH" |} ].
Proof. vm_compute. reflexivity. Qed.

Lemma scan_reports_only_source_files_witness :
  exists file_path content,
    In file_path (scan_targets demo_root open_fs) /\
    is_file open_fs file_path = true /\
    In (suffix file_path) extensions /\
    (exists c rest, strip_root demo_root file_path = Some (c :: rest)) /\
    open_read open_fs file_path = Ok content /\
    relative_to demo_root file_path = Ok "app.py" /\
    In {| i_file := "app.py"; i_category := "credentials"; i_line := 1;
          i_issue := "Potential credentials exposed"; i_severity := "HIGH" |}
       (scan_file_security demo_finditer demo_root open_fs file_path).
Proof.
  apply (scan_reports_only_source_files demo_finditer demo_root open_fs
           {| i_file := "app.py"; i_category := "credentials"; i_line := 1;
              i_issue := "Potential credentials exposed"; i_severity := "HIGH" |}).
  vm_compute. left. reflexivity.
Defined.

End ScannerExtras.

(** ** Text handling of the stages *)

Module TextProofs.
Import States Graph.

Lemma split_lines_cons (s : string) : exists l ls, Py.split_lines s = l :: ls.
Proof.
  induction s as [|c r (l & ls & IH)]; simpl; [eauto|].
  destruct (Ascii.eqb c Py.nl); [eauto|]. rewrite IH. eauto.
Qed.

Lemma split_lines_app (x y : string) :
  Py.split_lines (x ++ Py.nl_str ++ y) = Py.split_lines x ++ Py.split_lines y.
Proof.
  unfold Py.nl_str. induction x as [|c r IH]; simpl.
  - reflexivity.
  - destruct (Ascii.eqb c Py.nl); [rewrite IH; reflexivity|].
    rewrite IH. destruct (split_lines_cons r) as (l & ls & ->). reflexivity.
Qed.

Lemma split_lines_one_line (s : string) :
  Py.count_nl s = 0%nat -> Py.split_lines s = [s].
Proof.
  induction s as [|c r IH]; simpl; [reflexivity|].
  destruct (Ascii.eqb c Py.nl); [discriminate|]. intros H.
  rewrite (IH H). reflexivity.
Qed.

Lemma join_split_lines (s : string) : Py.join Py.nl_str (Py.split_lines s) = s.
Proof.
  induction s as [|c r IH]; simpl; [reflexivity|].
  destruct (Ascii.eqb c Py.nl) eqn:E.
  - apply Ascii.eqb_eq in E. subst c.
    destruct (split_lines_cons r) as (l & ls & Hs). rewrite Hs in *.
    change (Py.join Py.nl_str (EmptyString :: l :: ls))
      with (EmptyString ++ Py.nl_str ++ Py.join Py.nl_str (l :: ls))%string.
    rewrite IH. reflexivity.
  - destruct (split_lines_cons r) as (l & ls & Hs). rewrite Hs in *.
    destruct ls as [|l' ls'].
    + simpl in *. rewrite IH. reflexivity.
    + change (Py.join Py.nl_str (String c l :: l' :: ls'))
        with (String c (l ++ Py.nl_str ++ Py.join Py.nl_str (l' :: ls')))%string.
      change (Py.join Py.nl_str (l :: l' :: ls'))
        with (l ++ Py.nl_str ++ Py.join Py.nl_str (l' :: ls'))%string in IH.
      rewrite IH. reflexivity.
Qed.

Lemma startswith_app (p s : string) : Py.startswith (p ++ s) p = true.
Proof.
  unfold Py.startswith. induction p as [|c p IH]; simpl.
  - destruct s; reflexivity.
  - destruct (ascii_dec c c); [exact IH|congruence].
Qed.

(** Round trip of the code fence: a text wrapped in a Markdown fence, with
    any language tag on the opening line, is unwrapped to exactly the text,
    whatever the text is; and a text that does not begin with a fence is
    left alone. *)
Theorem strip_code_fence_unwraps (lang body : string) :
  Py.count_nl lang = 0%nat ->
  strip_code_fence ("```" ++ lang ++ Py.nl_str ++ body ++ Py.nl_str ++ "```") = body /\
  (forall text, Py.startswith text "```" = false -> strip_code_fence text = text).
Proof.
  intros Hl. split.
  2:{ intros text H. unfold strip_code_fence. rewrite H. reflexivity. }
  unfold strip_code_fence.
  rewrite (startswith_app "```" (lang ++ Py.nl_str ++ body ++ Py.nl_str ++ "```")%string).
  change ("```" ++ lang ++ Py.nl_str ++ body ++ Py.nl_str ++ "```")%string
    with (("```" ++ lang) ++ Py.nl_str ++ (body ++ Py.nl_str ++ "```"))%string.
  rewrite split_lines_app, split_lines_app.
  rewrite (split_lines_one_line ("```" ++ lang)%string) by exact Hl.
  cbn [List.app]. rewrite (startswith_app "```" lang).
  change (Py.split_lines "```") with ["```"%string].
  destruct (Py.split_lines body ++ ["```"%string]) as [|l0 ls0] eqn:E.
  { destruct (Py.split_lines body); discriminate. }
  rewrite <- E. rewrite last_last, removelast_last.
  change (Py.startswith "```" "```") with true. cbv iota.
  apply join_split_lines.
Qed.

Lemma strip_code_fence_unwraps_witness :
  strip_code_fence ("```" ++ "python" ++ Py.nl_str ++ "print(1)" ++ Py.nl_str ++ "```")
    = "print(1)".
Proof.
  apply (proj1 (strip_code_fence_unwraps "python" "print(1)" eq_refl)).
Defined.

Lemma take_prefix (n : nat) (s : string) : String.prefix (Py.take n s) s = true.
Proof.
  unfold Py.take. revert n. induction s as [|c r IH]; intros n; simpl.
  - destruct n; reflexivity.
  - destruct n; simpl; [reflexivity|].
    destruct (ascii_dec c c); [apply IH|congruence].
Qed.

Lemma prefix_refl (s : string) : String.prefix s s = true.
Proof.
  induction s as [|c r IH]; simpl; [reflexivity|].
  destruct (ascii_dec c c); [exact IH|congruence].
Qed.

(** The character limit on the prompt: for a string the result is the
    string itself when it has at most [max_chars] characters and its first
    [max_chars] characters otherwise; so the result is a prefix of the
    text, never longer than the limit, its token estimate is at most a
    quarter of the limit, and limiting it again changes nothing. *)
Theorem enforce_character_limit_caps (text : string) (max_chars : nat) :
  exists limited,
    enforce_character_limit (VStr text) max_chars = Ok limited /\
    String.length limited = Nat.min (String.length text) max_chars /\
    String.prefix limited text = true /\
    ((String.length text <= max_chars)%nat -> limited = text) /\
    Config.count_tokens_estimate limited <= Z.of_nat max_chars / 4 /\
    enforce_character_limit (VStr limited) max_chars = Ok limited.
Proof.
  unfold enforce_character_limit.
  destruct (max_chars <? String.length text)%nat eqn:L.
  - apply Nat.ltb_lt in L. exists (Py.take max_chars text).
    assert (Hlen : String.length (Py.take max_chars text) = max_chars).
    { rewrite ProjectSetupProofs.take_length. lia. }
    split; [reflexivity|]. split; [rewrite Hlen; lia|].
    split; [apply take_prefix|]. split; [lia|]. split.
    + unfold Config.count_tokens_estimate. rewrite Hlen. lia.
    + rewrite Hlen, Nat.ltb_irrefl. reflexivity.
  - apply Nat.ltb_ge in L. exists text.
    split; [reflexivity|]. split; [lia|]. split; [apply prefix_refl|].
    split; [reflexivity|]. split.
    + unfold Config.count_tokens_estimate. apply Z.div_le_mono; lia.
    + replace (max_chars <? String.length text)%nat with false
        by (symmetry; apply Nat.ltb_ge; exact L). reflexivity.
Qed.

End TextProofs.

(** ** The back-off, over the retries *)

Module BackoffExtras.
Import States Graph Runs BackoffProofs.

Lemma int_of_digits_nonneg (ds : list ascii) : 0 <= Py.int_of_digits ds.
Proof.
  unfold Py.int_of_digits.
  assert (G : forall ds acc, 0 <= acc ->
            0 <= fold_left (fun acc c => 10 * acc + Z.of_nat (nat_of_ascii c - 48)) ds acc).
  { clear. induction ds as [|d ds IH]; simpl; intros acc H; [exact H|].
    apply IH. lia. }
  apply G. lia.
Qed.

Lemma match_retry_delay_nonneg (s : string) (d : Z) :
  match_retry_delay s = Some d -> 0 <= d.
Proof.
  unfold match_retry_delay.
  destruct (strip_prefix "retry_delay" s) as [s1|]; [|discriminate].
  destruct (strip_prefix "{" (Py.lstrip s1)) as [s2|]; [|discriminate].
  destruct (strip_prefix "seconds:" (Py.lstrip s2)) as [s3|]; [|discriminate].
  destruct (take_digits (Py.lstrip s3)) as [|c ds]; [discriminate|].
  intros [= <-]. apply int_of_digits_nonneg.
Qed.

Lemma search_retry_delay_nonneg (s : string) (d : Z) :
  search_retry_delay s = Some d -> 0 <= d.
Proof.
  induction s as [|c r IH]; simpl.
  - vm_compute. discriminate.
  - destruct (match_retry_delay (String c r)) eqn:M; [|exact IH].
    intros [= <-]. eapply match_retry_delay_nonneg, M.
Qed.

Lemma quota_wait_bounds (n : Z) :
  1 <= n -> (5 <= quota_wait n /\ quota_wait n <= 120)%Q.
Proof.
  intros Hn. unfold quota_wait. rewrite (quota_wait_integer n Hn).
  assert (0 < 2 ^ (n - 1)) by (apply Z.pow_pos_nonneg; lia).
  change 5%Q with (inject_Z 5). change 120%Q with (inject_Z 120).
  rewrite <- !Zle_Qle. lia.
Qed.

Lemma quota_wait_mono (n m : Z) :
  1 <= n -> n <= m -> (quota_wait n <= quota_wait m)%Q.
Proof.
  intros Hn Hm. unfold quota_wait.
  rewrite (quota_wait_integer n Hn), (quota_wait_integer m) by lia.
  rewrite <- Zle_Qle.
  assert (2 ^ (n - 1) <= 2 ^ (m - 1)) by (apply Z.pow_le_mono_r; lia).
  lia.
Qed.

(** The wait before a retry, for a retry count of at least one (the
    handler increments the count first): it is never less than 2 seconds,
    so the coder never retries in a tight loop; without a delay named by
    the provider it lies between 5 and 120 seconds; and from one retry to
    a later one it never decreases. *)
Theorem wait_seconds_bounds (err : string) (n m : Z) :
  1 <= n -> n <= m ->
  (2 <= wait_seconds err n)%Q /\
  (search_retry_delay err = None ->
     (5 <= wait_seconds err n)%Q /\ (wait_seconds err n <= 120)%Q) /\
  (wait_seconds err n <= wait_seconds err m)%Q.
Proof.
  intros Hn Hm. unfold wait_seconds.
  destruct (search_retry_delay err) as [d|] eqn:S.
  - apply search_retry_delay_nonneg in S.
    split; [|split; [discriminate|apply Qle_refl]].
    change 2%Q with (inject_Z 2). rewrite <- Zle_Qle. lia.
  - destruct (quota_exhausted err).
    + pose proof (quota_wait_bounds n Hn) as [B1 B2]. unfold quota_wait in *.
      split; [lra|]. split; [intros _; split; assumption|].
      apply (quota_wait_mono n m Hn Hm).
    + split; [lra|]. split; [intros _; split; lra|lra].
Qed.

Lemma wait_seconds_bounds_witness :
  (2 <= wait_seconds "429 ResourceExhausted" 3)%Q /\
  (search_retry_delay "429 ResourceExhausted" = None ->
     (5 <= wait_seconds "429 ResourceExhausted" 3)%Q /\
     (wait_seconds "429 ResourceExhausted" 3 <= 120)%Q) /\
  (wait_seconds "429 ResourceExhausted" 3 <= wait_seconds "429 ResourceExhausted" 7)%Q.
Proof.
  apply (wait_seconds_bounds "429 ResourceExhausted" 3 7); lia.
Defined.

End BackoffExtras.

(** ** The coder's loop over several calls *)

Module CoderExtras.
Import States Graph Runs Examples CoderProofs PlanningProofs.

Lemma returned_coder_state (cs : CoderState) (status : string) (state : State) :
  initial_coder_state (coder_return cs status state) = Ok cs.
Proof. reflexivity. Qed.

Lemma get_coder_state_return (cs : CoderState) (status : string) (state : State) :
  get "coder_state" (coder_return cs status state) = VCoderState cs.
Proof. reflexivity. Qed.

(** One quota failure. *)
Lemma quota_failure_step env state cs task :
  initial_coder_state state = Ok cs ->
  0 <= current_step_idx cs < task_count cs ->
  py_index (implementation_steps (task_plan cs)) (current_step_idx cs) = Ok task ->
  fails_for_quota task env ->
  coder_agent env state =
    {| ret := Ok (coder_return (retried cs) "CODING_RETRY" state);
       slept := [quota_wait (retry_attempts cs + 1)] |}.
Proof.
  intros Hi Hr Ht (R & L & e & He & Hs & Hq).
  destruct (coder_agent_below env state cs Hi Hr) as (task' & Ht' & E).
  rewrite Ht in Ht'. injection Ht' as <-. rewrite E.
  destruct R as [existing ->]. unfold coder_try.
  destruct (rate_limit_check env) as [can_proceed wait_time]. simpl in L. subst.
  rewrite He. simpl. unfold wait_seconds. rewrite Hs, Hq. reflexivity.
Qed.

Lemma map_seq_shift {A} (f : nat -> A) (start len : nat) :
  List.map f (seq (S start) len) = List.map (fun j => f (S j)) (seq start len).
Proof. rewrite <- seq_shift, List.map_map. reflexivity. Qed.

(** Consecutive quota failures on one file: while the provider keeps
    refusing for quota, the cursor stays on the file, [retry_attempts]
    counts the failures, and the sleep after the j-th failure in a row is
    min(5 * 2^(r + j - 1), 120) seconds for a retry count that started at
    r: from a fresh file, 5, 10, 20, 40, 80, 120, 120, ... *)
Theorem consecutive_quota_failures (envs : list CoderEnv) : forall state cs task,
  initial_coder_state state = Ok cs ->
  0 <= current_step_idx cs < task_count cs ->
  py_index (implementation_steps (task_plan cs)) (current_step_idx cs) = Ok task ->
  Forall (fails_for_quota task) envs ->
  exists state' cs',
    coder_invocations envs state = Ok state' /\
    initial_coder_state state' = Ok cs' /\
    task_plan cs' = task_plan cs /\
    current_step_idx cs' = current_step_idx cs /\
    retry_attempts cs' = retry_attempts cs + Z.of_nat (length envs) /\
    coder_naps envs state =
      List.map (fun j => quota_wait (retry_attempts cs + Z.of_nat j))
               (seq 1 (length envs)).
Proof.
  induction envs as [|env envs IH]; intros state cs task Hi Hr Ht Hall.
  - exists state, cs. simpl. repeat split; try assumption; try reflexivity. lia.
  - inversion Hall as [|? ? Hq Hrest]; subst.
    pose proof (quota_failure_step env state cs task Hi Hr Ht Hq) as E.
    destruct (IH (coder_return (retried cs) "CODING_RETRY" state) (retried cs) task)
      as (state' & cs' & R & I & T & X & N & S); try assumption; try reflexivity.
    exists state', cs'. simpl coder_invocations. simpl coder_naps. rewrite E. simpl ret.
    simpl slept. simpl in *.
    split; [exact R|]. split; [exact I|]. split; [exact T|]. split; [exact X|].
    split; [lia|].
    rewrite S. simpl.
    apply f_equal2; [apply f_equal; lia|].
    rewrite (map_seq_shift _ 1). apply List.map_ext. intros j. apply f_equal. lia.
Qed.

(** Three quota failures in a row on app.py. *)
Lemma consecutive_quota_failures_witness :
  exists state' cs',
    coder_invocations [quota_world demo_fs; quota_world demo_fs; quota_world demo_fs]
      two_tasks_input = Ok state' /\
    initial_coder_state state' = Ok cs' /\
    task_plan cs' = two_tasks /\
    current_step_idx cs' = 0 /\
    retry_attempts cs' = 0 + Z.of_nat 3 /\
    coder_naps [quota_world demo_fs; quota_world demo_fs; quota_world demo_fs]
      two_tasks_input =
      List.map (fun j => quota_wait (0 + Z.of_nat j)) (seq 1 3).
Proof.
  apply (consecutive_quota_failures
           [quota_world demo_fs; quota_world demo_fs; quota_world demo_fs]
           two_tasks_input
           {| task_plan := two_tasks; current_step_idx := 0;
              current_file_content := None; retry_attempts := 0 |}
           {| filepath := "app.py"; task_description := "write the application" |}).
  - reflexivity.
  - vm_compute. split; [discriminate|reflexivity].
  - reflexivity.
  - repeat constructor; try (exists EmptyString; vm_compute; reflexivity);
      exists (ProviderError "429 ResourceExhausted"); repeat split; vm_compute; reflexivity.
Defined.

Example quota_naps :
  coder_naps [quota_world demo_fs; quota_world demo_fs; quota_world demo_fs]
    two_tasks_input = [5; 10; 20]%Q.
Proof. vm_compute. reflexivity. Qed.

(** A file that cannot be generated: as long as every attempt fails
    inside the [try], the graph keeps calling the coder, and the run ends
    only when the recursion limit is used up, with [GraphRecursionError].
    No attempt is skipped and no later stage is reached. *)
Theorem retry_until_recursion_limit (limit : nat) (envs : nat -> Env) :
  forall (k : nat) (state : State) (cs : CoderState) (task : ImplementationTask),
  initial_coder_state state = Ok cs ->
  0 <= current_step_idx cs < task_count cs ->
  py_index (implementation_steps (task_plan cs)) (current_step_idx cs) = Ok task ->
  (forall j, fails_transiently task (coder_env (envs j))) ->
  invoke_from limit envs k coder state = (repeat coder limit, Raise GraphRecursionError).
Proof.
  induction limit as [|limit IH]; intros k state cs task Hi Hr Ht Hall.
  - reflexivity.
  - rewrite invoke_from_S by discriminate. cbn [run_node].
    destruct (coder_agent_cases (coder_env (envs k)) state cs Hi Hr) as (task' & Ht' & H).
    rewrite Ht in Ht'. injection Ht' as <-.
    destruct (Hall k) as [[existing R] [e F]]. rewrite R, F in H.
    destruct H as [(state' & cs' & Ret & G & T & X & _ & _ & Route) _].
    rewrite Ret. cbn [next_node]. rewrite Route.
    rewrite (IH (S k) state' cs' task); try assumption.
    + reflexivity.
    + apply initial_of_returned, G.
    + unfold task_count in *. rewrite T, X. exact Hr.
    + rewrite T, X. exact Ht.
Qed.

Lemma retry_until_recursion_limit_witness :
  invoke_from 4
    (fun _ => {| planner_env := planner_world two_files;
                 architect_env := architect_world;
                 coder_env := quota_world demo_fs;
                 security_env := security_world;
                 fixer_env := fixer_world open_fs |})
    2 coder two_tasks_input
  = (repeat coder 4, Raise GraphRecursionError).
Proof.
  apply (retry_until_recursion_limit 4 _ 2 two_tasks_input
           {| task_plan := two_tasks; current_step_idx := 0;
              current_file_content := None; retry_attempts := 0 |}
           {| filepath := "app.py"; task_description := "write the application" |}).
  - reflexivity.
  - vm_compute. split; [discriminate|reflexivity].
  - reflexivity.
  - intros j. split.
    + exists EmptyString. vm_compute. reflexivity.
    + exists (ProviderError "429 ResourceExhausted"). vm_compute. reflexivity.
Defined.

(** A returned call moves the cursor by at most one. *)
Lemma coder_step_at_most_one env state cs state' :
  initial_coder_state state = Ok cs ->
  0 <= current_step_idx cs <= task_count cs ->
  ret (coder_agent env state) = Ok state' ->
  exists cs',
    initial_coder_state state' = Ok cs' /\
    task_plan cs' = task_plan cs /\
    current_step_idx cs <= current_step_idx cs' <= current_step_idx cs + 1 /\
    current_step_idx cs' <= task_count cs /\
    (get "status" state' = VStr "CODING_DONE" <-> current_step_idx cs' = task_count cs).
Proof.
  intros Hi Hr Hret.
  destruct (coder_step env state cs state' Hi Hr Hret) as (cs' & G & T & I & D & _).
  exists cs'. split; [apply initial_of_returned, G|]. split; [exact T|].
  split; [|split; [lia|exact D]]. split; [lia|].
  destruct (Z.eq_dec (current_step_idx cs) (task_count cs)) as [E|NE]; [lia|].
  assert (Hlt : 0 <= current_step_idx cs < task_count cs) by lia.
  destruct (coder_agent_below env state cs Hi Hlt) as (task & _ & Eq).
  rewrite Eq in Hret. clear Eq.
  destruct (read_file env (filepath task)); [|discriminate].
  destruct (coder_try env (filepath task)) as [naps [[]|e]]; simpl in Hret;
    injection Hret as <-; rewrite get_coder_state_return in G;
    injection G as <-; simpl; lia.
Qed.

Lemma calls_bound_cursor (envs : list CoderEnv) : forall state cs state',
  initial_coder_state state = Ok cs ->
  0 <= current_step_idx cs <= task_count cs ->
  coder_invocations envs state = Ok state' ->
  exists cs',
    initial_coder_state state' = Ok cs' /\
    task_plan cs' = task_plan cs /\
    current_step_idx cs' <= current_step_idx cs + Z.of_nat (length envs) /\
    current_step_idx cs' <= task_count cs /\
    (envs <> [] ->
     (get "status" state' = VStr "CODING_DONE" <-> current_step_idx cs' = task_count cs)).
Proof.
  induction envs as [|env envs IH]; intros state cs state' Hi Hr H; simpl in H.
  - injection H as <-. exists cs. repeat split; try assumption; try lia; contradiction.
  - destruct (ret (coder_agent env state)) as [s1|e] eqn:E1; [|discriminate].
    destruct (coder_step_at_most_one env state cs s1 Hi Hr E1)
      as (cs1 & I1 & T1 & X1 & B1 & D1).
    assert (Hr1 : 0 <= current_step_idx cs1 <= task_count cs1)
      by (unfold task_count in *; rewrite T1; lia).
    destruct (IH s1 cs1 state' I1 Hr1 H) as (cs' & I' & T' & X' & B' & D').
    exists cs'. split; [exact I'|]. split; [congruence|].
    unfold task_count in *. rewrite T1 in *. simpl length.
    split; [lia|]. split; [lia|]. intros _.
    destruct envs as [|env' envs'].
    + simpl in H. injection H as <-. rewrite I1 in I'. injection I' as <-. exact D1.
    + apply D'. discriminate.
Qed.

(** One file per call at most: after m returned calls from a state
    without a coder state, the cursor is at most m.  So the coder reports
    done only after at least as many calls as the task plan has tasks. *)
Theorem one_file_per_call (tp : TaskPlan) (state0 : State) (envs : list CoderEnv)
    (state' : State) :
  get "coder_state" state0 = VNone ->
  get "task_plan" state0 = VTaskPlan tp ->
  envs <> [] ->
  coder_invocations envs state0 = Ok state' ->
  exists cs',
    get "coder_state" state' = VCoderState cs' /\
    current_step_idx cs' <= Z.of_nat (length envs) /\
    (get "status" state' = VStr "CODING_DONE" ->
       (length (implementation_steps tp) <= length envs)%nat).
Proof.
  intros Hc Ht Hne H.
  set (cs0 := {| task_plan := tp; current_step_idx := 0;
                 current_file_content := None; retry_attempts := 0 |}).
  assert (Hi0 : initial_coder_state state0 = Ok cs0).
  { unfold initial_coder_state. rewrite Hc, Ht. reflexivity. }
  assert (Hr0 : 0 <= current_step_idx cs0 <= task_count cs0)
    by (unfold task_count, cs0; simpl; lia).
  destruct (calls_bound_cursor envs state0 cs0 state' Hi0 Hr0 H)
    as (cs' & I & T & X & B & D).
  exists cs'. unfold task_count, cs0 in *. simpl in *.
  split.
  - unfold initial_coder_state in I.
    destruct (get "coder_state" state') as [| | | | | |c|] eqn:G; try discriminate.
    + destruct (get "task_plan" state'); try discriminate.
      destruct envs as [|env envs]; [contradiction|]. simpl in H.
      destruct (ret (coder_agent env state0)) as [s1|e] eqn:E1; [|discriminate].
      destruct (coder_step env state0 cs0 s1 Hi0 Hr0 E1) as (cs1 & C1).
      assert (I1 : initial_coder_state s1 = Ok cs1) by (apply initial_of_returned, C1).
      assert (Hr1 : 0 <= current_step_idx cs1 <= task_count cs1).
      { destruct C1 as (_ & T1 & X1 & _). unfold task_count in *. rewrite T1.
        unfold cs0 in X1. simpl in X1. unfold cs0. simpl. lia. }
      destruct (coder_invocations_carried envs s1 cs1 state' I1 Hr1 H)
        as [[_ ->]|[cs2 C2]].
      * destruct C1 as (G1 & _). congruence.
      * destruct C2 as (G2 & _). congruence.
    + injection I as <-. reflexivity.
  - split; [lia|]. intros Hd. apply (D Hne) in Hd. lia.
Qed.

Lemma one_file_per_call_witness :
  exists cs',
    get "coder_state" after_first_file = VCoderState cs' /\
    current_step_idx cs' <= Z.of_nat (length [coder_world demo_fs]) /\
    (get "status" after_first_file = VStr "CODING_DONE" ->
       (length (implementation_steps two_tasks) <= length [coder_world demo_fs])%nat).
Proof.
  apply (one_file_per_call two_tasks two_tasks_input [coder_world demo_fs]).
  - reflexivity.
  - reflexivity.
  - discriminate.
  - vm_compute. reflexivity.
Defined.

Lemma py_index_in {A} (l : list A) (i : Z) (a : A) : py_index l i = Ok a -> In a l.
Proof.
  unfold py_index. destruct (_ || _); [discriminate|].
  destruct (nth_error l _) eqn:E; [|discriminate].
  intros [= <-]. eapply nth_error_In, E.
Qed.

(** One successful call. *)
Lemma success_step env state cs :
  initial_coder_state state = Ok cs ->
  0 <= current_step_idx cs < task_count cs ->
  succeeds_on (task_plan cs) env ->
  ret (coder_agent env state) =
    Ok (coder_return (advanced cs)
          (if current_step_idx cs + 1 >=? task_count cs
           then "CODING_DONE" else "CODING_IN_PROGRESS") state).
Proof.
  intros Hi Hr Hs.
  destruct (coder_agent_below env state cs Hi Hr) as (task & Ht & E). rewrite E.
  destruct (Hs task (py_index_in _ _ _ Ht)) as ([existing ->] & content & L & [msg W]).
  unfold coder_try.
  destruct (rate_limit_check env) as [can_proceed wait_time]. rewrite L, W.
  reflexivity.
Qed.

Lemma successful_calls_from (envs : list CoderEnv) : forall state cs,
  initial_coder_state state = Ok cs ->
  0 <= current_step_idx cs ->
  envs <> [] ->
  current_step_idx cs + Z.of_nat (length envs) <= task_count cs ->
  Forall (succeeds_on (task_plan cs)) envs ->
  exists state' cs',
    coder_invocations envs state = Ok state' /\
    get "coder_state" state' = VCoderState cs' /\
    task_plan cs' = task_plan cs /\
    current_step_idx cs' = current_step_idx cs + Z.of_nat (length envs) /\
    retry_attempts cs' = 0 /\
    get "status" state' =
      VStr (if current_step_idx cs' >=? task_count cs
            then "CODING_DONE" else "CODING_IN_PROGRESS").
Proof.
  induction envs as [|env envs IH]; intros state cs Hi H0 Hne Hlen Hall;
    [contradiction|].
  inversion Hall as [|? ? Hs Hrest]; subst. simpl length in Hlen.
  assert (Hr : 0 <= current_step_idx cs < task_count cs) by lia.
  pose proof (success_step env state cs Hi Hr Hs) as E.
  simpl coder_invocations. rewrite E.
  destruct envs as [|env' envs'].
  - eexists _, (advanced cs). simpl. repeat split; try reflexivity.
  - destruct (IH (coder_return (advanced cs)
                    (if current_step_idx cs + 1 >=? task_count cs
                     then "CODING_DONE" else "CODING_IN_PROGRESS") state)
                 (advanced cs))
      as (state' & cs' & R & G & T & X & N & S);
      try assumption; try reflexivity; try discriminate.
    + simpl. lia.
    + unfold task_count in *. simpl in *. lia.
    + exists state', cs'. unfold task_count in *. simpl in *.
      repeat split; try assumption. lia.
Qed.

(** When nothing fails, the coder writes one file per call and finishes
    with the last one: from a state without a coder state, after as many
    successful calls as the task plan has tasks, the cursor equals the
    task count, the retry count is 0 and the status is the done marker;
    after fewer calls the cursor equals the number of calls and the status
    is the in-progress marker. *)
Theorem successful_calls_finish (tp : TaskPlan) (state0 : State) (envs : list CoderEnv) :
  get "coder_state" state0 = VNone ->
  get "task_plan" state0 = VTaskPlan tp ->
  envs <> [] ->
  (length envs <= length (implementation_steps tp))%nat ->
  Forall (succeeds_on tp) envs ->
  exists state' cs',
    coder_invocations envs state0 = Ok state' /\
    get "coder_state" state' = VCoderState cs' /\
    current_step_idx cs' = Z.of_nat (length envs) /\
    retry_attempts cs' = 0 /\
    get "status" state' =
      VStr (if (length envs =? length (implementation_steps tp))%nat
            then "CODING_DONE" else "CODING_IN_PROGRESS").
Proof.
  intros Hc Ht Hne Hlen Hall.
  set (cs0 := {| task_plan := tp; current_step_idx := 0;
                 current_file_content := None; retry_attempts := 0 |}).
  assert (Hi0 : initial_coder_state state0 = Ok cs0).
  { unfold initial_coder_state. rewrite Hc, Ht. reflexivity. }
  destruct (successful_calls_from envs state0 cs0 Hi0)
    as (state' & cs' & R & G & T & X & N & S); try assumption.
  - simpl. lia.
  - unfold task_count, cs0. simpl. lia.
  - exists state', cs'. unfold task_count, cs0 in *. simpl in *.
    rewrite Z.add_0_l in X.
    split; [exact R|]. split; [exact G|]. split; [exact X|]. split; [exact N|].
    rewrite S, X. f_equal.
    destruct (length envs =? length (implementation_steps tp))%nat eqn:E.
    + apply Nat.eqb_eq in E.
      replace (Z.of_nat (length envs) >=? Z.of_nat (length (implementation_steps tp)))
        with true by (symmetry; apply Z.geb_le; lia). reflexivity.
    + apply Nat.eqb_neq in E.
      replace (Z.of_nat (length envs) >=? Z.of_nat (length (implementation_steps tp)))
        with false by (symmetry; rewrite Z.geb_leb; apply Z.leb_gt; lia). reflexivity.
Qed.

Lemma successful_calls_finish_witness :
  exists state' cs',
    coder_invocations [coder_world demo_fs; coder_world demo_fs] two_tasks_input
      = Ok state' /\
    get "coder_state" state' = VCoderState cs' /\
    current_step_idx cs' = Z.of_nat (length [coder_world demo_fs; coder_world demo_fs]) /\
    retry_attempts cs' = 0 /\
    get "status" state' =
      VStr (if (length [coder_world demo_fs; coder_world demo_fs]
                =? length (implementation_steps two_tasks))%nat
            then "CODING_DONE" else "CODING_IN_PROGRESS").
Proof.
  apply (successful_calls_finish two_tasks two_tasks_input
           [coder_world demo_fs; coder_world demo_fs]).
  - reflexivity.
  - reflexivity.
  - discriminate.
  - simpl. lia.
  - assert (A : succeeds_on two_tasks (coder_world demo_fs)).
    { intros task [<-|[<-|[]]]; (split; [exists EmptyString; vm_compute; reflexivity|]);
        eexists; (split; [reflexivity|]); eexists; vm_compute; reflexivity. }
    constructor; [exact A|]. constructor; [exact A|]. constructor.
Defined.

End CoderExtras.
